(** * Black-Scholes option pricer: pricing functions, Greeks and P&L grid

    Shallow embedding of [app.py].

    Numbers.  The program computes with IEEE-754 binary64 values (Python
    [float] and numpy [float64]).  They are embedded as the type [num]:
    a finite real ([Fin x], arithmetic on finite values is exact, rounding
    and overflow are not modelled), the two infinities, and NaN, with the
    IEEE rules for the special values.  Zero is unsigned: a non-zero value
    divided by zero gives the infinity that has the sign of the numerator,
    as for a divisor [+0.0].

    Errors.  Python raises where numpy only warns: the division of two
    Python floats raises [ZeroDivisionError] on a zero divisor, numpy
    reductions of an empty array raise [ValueError].  Such code runs in the
    error monad [res].

    Rounding.  Where a property of the summary turns on a rounding error,
    the module [Binary64] replays the mean, the standard deviation and the
    risk-reward ratio on the binary64 numbers themselves. *)

From Stdlib Require Import Reals Lra Lia List ZArith String Bool.
From Stdlib Require PrimFloat Uint63.
Import ListNotations.
Open Scope R_scope.

(** ** The standard normal distribution ([scipy.stats.norm]) *)

Module Normal.

(** [norm.pdf]: the density [exp(-x**2/2) / sqrt(2*pi)]. *)
Definition pdf (x : R) : R := exp (- (x * x) / 2) / sqrt (2 * PI).

Lemma pdf_continuity : continuity pdf.
Proof.
  intro x. apply derivable_continuous_pt. unfold pdf. reg.
Qed.

Lemma pdf_integrable (a : R) (Ha : 0 <= a) : Riemann_integrable pdf 0 a.
Proof.
  apply continuity_implies_RiemannInt; [exact Ha | intros x _; apply pdf_continuity].
Qed.

(** The probability mass of the interval [[0, a]]. *)
Definition half_mass (a : R) (Ha : 0 <= a) : R := RiemannInt (pdf_integrable a Ha).

Lemma opp_nonneg (x : R) : ~ 0 <= x -> 0 <= - x.
Proof. lra. Qed.

(** [norm.cdf]: the mass below [x].  The density is even and its total
    mass is one, so the mass below zero is one half; below a negative [x]
    it is one half minus the mass of [[0, -x]]. *)
Definition cdf (x : R) : R :=
  match Rle_dec 0 x with
  | left H => 1 / 2 + half_mass x H
  | right H => 1 / 2 - half_mass (- x) (opp_nonneg x H)
  end.

End Normal.

(** ** Floating-point values *)

Inductive num : Type :=
| Fin (x : R)      (* a finite value *)
| PInf             (* +inf *)
| NInf             (* -inf *)
| NaN.

Declare Scope num_scope.
Delimit Scope num_scope with num.
Bind Scope num_scope with num.

Definition inf_of_sign (negative : bool) : num := if negative then NInf else PInf.

Definition nneg (a : num) : num :=
  match a with
  | Fin x => Fin (- x)
  | PInf => NInf
  | NInf => PInf
  | NaN => NaN
  end.

Definition nadd (a b : num) : num :=
  match a, b with
  | NaN, _ | _, NaN => NaN
  | Fin x, Fin y => Fin (x + y)
  | PInf, NInf | NInf, PInf => NaN
  | PInf, _ | _, PInf => PInf
  | NInf, _ | _, NInf => NInf
  end.

Definition nsub (a b : num) : num :=
  match a, b with
  | NaN, _ | _, NaN => NaN
  | Fin x, Fin y => Fin (x - y)
  | PInf, PInf | NInf, NInf => NaN
  | PInf, _ | _, NInf => PInf
  | NInf, _ | _, PInf => NInf
  end.

(** The sign of a finite value: [true] is negative. *)
Definition Rnegative (x : R) : bool := if Rlt_dec x 0 then true else false.

Definition nmul (a b : num) : num :=
  match a, b with
  | NaN, _ | _, NaN => NaN
  | Fin x, Fin y => Fin (x * y)
  | Fin x, PInf | PInf, Fin x =>
      if Req_dec_T x 0 then NaN else inf_of_sign (Rnegative x)
  | Fin x, NInf | NInf, Fin x =>
      if Req_dec_T x 0 then NaN else inf_of_sign (negb (Rnegative x))
  | PInf, PInf | NInf, NInf => PInf
  | PInf, NInf | NInf, PInf => NInf
  end.

Definition ndiv (a b : num) : num :=
  match a, b with
  | NaN, _ | _, NaN => NaN
  | Fin x, Fin y =>
      if Req_dec_T y 0
      then if Req_dec_T x 0 then NaN else inf_of_sign (Rnegative x)
      else Fin (x / y)
  | Fin _, (PInf | NInf) => Fin 0
  | PInf, Fin y => inf_of_sign (Rnegative y)
  | NInf, Fin y => inf_of_sign (negb (Rnegative y))
  | (PInf | NInf), (PInf | NInf) => NaN
  end.

(** [np.log] *)
Definition nlog (a : num) : num :=
  match a with
  | Fin x => if Rlt_dec 0 x then Fin (ln x)
             else if Req_dec_T x 0 then NInf else NaN
  | PInf => PInf
  | NInf | NaN => NaN
  end.

(** [np.sqrt] *)
Definition nsqrt (a : num) : num :=
  match a with
  | Fin x => if Rlt_dec x 0 then NaN else Fin (sqrt x)
  | PInf => PInf
  | NInf | NaN => NaN
  end.

(** [np.exp] *)
Definition nexp (a : num) : num :=
  match a with
  | Fin x => Fin (exp x)
  | PInf => PInf
  | NInf => Fin 0
  | NaN => NaN
  end.

(** [norm.cdf] *)
Definition ncdf (a : num) : num :=
  match a with
  | Fin x => Fin (Normal.cdf x)
  | PInf => Fin 1
  | NInf => Fin 0
  | NaN => NaN
  end.

(** [norm.pdf] *)
Definition npdf (a : num) : num :=
  match a with
  | Fin x => Fin (Normal.pdf x)
  | PInf | NInf => Fin 0
  | NaN => NaN
  end.

(** [abs] *)
Definition nabs (a : num) : num :=
  match a with
  | Fin x => Fin (Rabs x)
  | PInf | NInf => PInf
  | NaN => NaN
  end.

(** [a < b]; every comparison with NaN is false. *)
Definition nlt (a b : num) : bool :=
  match a, b with
  | NaN, _ | _, NaN => false
  | Fin x, Fin y => if Rlt_dec x y then true else false
  | NInf, (Fin _ | PInf) => true
  | Fin _, PInf => true
  | _, _ => false
  end.

(** [a > b] *)
Definition ngt (a b : num) : bool := nlt b a.

(** [a ** 2] *)
Definition nsquare (a : num) : num := nmul a a.

(** The builtin [max(a, b)] of two arguments: the first one unless the
    second is greater. *)
Definition py_max (a b : num) : num := if ngt b a then b else a.

Notation "a + b" := (nadd a b) : num_scope.
Notation "a - b" := (nsub a b) : num_scope.
Notation "a * b" := (nmul a b) : num_scope.
Notation "a / b" := (ndiv a b) : num_scope.
Notation "- a" := (nneg a) : num_scope.

(** An [int] used in float arithmetic. *)
Definition of_Z (z : Z) : num := Fin (IZR z).
Definition of_nat (n : nat) : num := Fin (INR n).

(** ** Exceptions *)

Inductive exn : Type :=
| ZeroDivisionError
| ValueError
| IndexError.

Inductive res (A : Type) : Type :=
| Ok (a : A)
| Raise (e : exn).
Arguments Ok {A} a.
Arguments Raise {A} e.

Definition bind {A B : Type} (m : res A) (k : A -> res B) : res B :=
  match m with
  | Ok a => k a
  | Raise e => Raise e
  end.

Notation "x <- m ;; k" := (bind m (fun x => k))
  (at level 61, m at next level, right associativity).

Fixpoint mapM {A B : Type} (f : A -> res B) (l : list A) : res (list B) :=
  match l with
  | [] => Ok []
  | a :: l' => b <- f a ;; bs <- mapM f l' ;; Ok (b :: bs)
  end.

(** The dynamic type of a float operand. *)
Inductive float_type : Type :=
| py_float       (* the builtin [float] *)
| np_float64.    (* [numpy.float64] *)

(** [a / b] where [a] has type [ty] and [b] is a builtin float: the builtin
    division raises on a zero divisor, numpy's follows IEEE. *)
Definition truediv (ty : float_type) (a b : num) : res num :=
  match ty, b with
  | py_float, Fin y => if Req_dec_T y 0 then Raise ZeroDivisionError else Ok (a / b)%num
  | _, _ => Ok (a / b)%num
  end.

(** ** Pricing functions and Greeks *)

Open Scope string_scope.

Section Pricing.

Local Open Scope num_scope.

(** The dynamic type of the argument [S]: a builtin float where the script
    passes the sidebar input, a [numpy.float64] where it passes an element
    of a [linspace] array.  [K], [T] and [r] are always sidebar inputs. *)
Variable ty : float_type.

(** [black_scholes_call(S, K, T, r, sigma)] *)
Definition black_scholes_call (S K T r sigma : num) : res num :=
  q <- truediv ty S K ;;
  let d1 := (nlog q + (r + Fin 0.5 * nsquare sigma) * T) / (sigma * nsqrt T) in
  let d2 := d1 - sigma * nsqrt T in
  let call_price := S * ncdf d1 - K * nexp (- r * T) * ncdf d2 in
  Ok call_price.

(** [black_scholes_put(S, K, T, r, sigma)] *)
Definition black_scholes_put (S K T r sigma : num) : res num :=
  q <- truediv ty S K ;;
  let d1 := (nlog q + (r + Fin 0.5 * nsquare sigma) * T) / (sigma * nsqrt T) in
  let d2 := d1 - sigma * nsqrt T in
  let put_price := K * nexp (- r * T) * ncdf (- d2) - S * ncdf (- d1) in
  Ok put_price.

Record greeks : Type := mk_greeks {
  delta : num;
  gamma : num;
  theta : num;
  vega : num;
  rho : num
}.

(** [calculate_greeks(S, K, T, r, sigma, option_type)] *)
Definition calculate_greeks (S K T r sigma : num) (option_type : string) : res greeks :=
  q <- truediv ty S K ;;
  let d1 := (nlog q + (r + Fin 0.5 * nsquare sigma) * T) / (sigma * nsqrt T) in
  let d2 := d1 - sigma * nsqrt T in
  let delta :=
    if option_type =? "call" then ncdf d1
    else ncdf d1 - Fin 1 in
  let gamma := npdf d1 / (S * sigma * nsqrt T) in
  let theta :=
    if option_type =? "call"
    then (- S * npdf d1 * sigma / (Fin 2 * nsqrt T)
          - r * K * nexp (- r * T) * ncdf d2) / Fin 365
    else (- S * npdf d1 * sigma / (Fin 2 * nsqrt T)
          + r * K * nexp (- r * T) * ncdf (- d2)) / Fin 365 in
  let vega := S * npdf d1 * nsqrt T / Fin 100 in
  let rho :=
    if option_type =? "call"
    then K * T * nexp (- r * T) * ncdf d2 / Fin 100
    else - K * T * nexp (- r * T) * ncdf (- d2) / Fin 100 in
  Ok (mk_greeks delta gamma theta vega rho).

(** The dispatch on [option_type] that the script repeats wherever it
    prices an option:
    [if option_type == "call": black_scholes_call(...) else: black_scholes_put(...)]. *)
Definition option_price_of (option_type : string) (S K T r sigma : num) : res num :=
  if option_type =? "call"
  then black_scholes_call S K T r sigma
  else black_scholes_put S K T r sigma.

End Pricing.

(** ** numpy array functions used by the script *)

Module Np.

Local Open Scope num_scope.

(** [step == 0] *)
Definition is_zero (a : num) : bool :=
  match a with
  | Fin x => if Req_dec_T x 0 then true else false
  | _ => false
  end.

(** [np.linspace(start, stop, num)] with the default [endpoint=True]:
    [num] samples [i * step + start] where [step = (stop - start) / (num - 1)],
    the last one set to [stop] itself. *)
Definition linspace (start stop : num) (n : nat) : list num :=
  let div := (n - 1)%nat in
  let y := map of_nat (seq 0 n) in
  let delta := stop - start in
  let y :=
    if (0 <? div)%nat then
      let step := delta / of_nat div in
      if is_zero step
      then map (fun i => i / of_nat div * delta) y
      else map (fun i => i * step) y
    else map (fun i => i * delta) y in
  let y := map (fun v => v + start) y in
  if (1 <? n)%nat then (removelast y ++ [stop])%list else y.

(** [np.maximum] and [np.minimum] propagate NaN. *)
Definition maximum (a b : num) : num :=
  match a, b with
  | NaN, _ | _, NaN => NaN
  | _, _ => if nlt a b then b else a
  end.

Definition minimum (a b : num) : num :=
  match a, b with
  | NaN, _ | _, NaN => NaN
  | _, _ => if nlt b a then b else a
  end.

(** A two-dimensional array, as the list of its rows; reductions without
    an axis run over its elements in row-major order. *)
Definition matrix : Type := list (list num).

Definition flat (m : matrix) : list num := List.concat m.

(** [m.size] *)
Definition size (m : matrix) : nat := List.length (flat m).

(** [np.max(m)]: raises on an empty array. *)
Definition max (m : matrix) : res num :=
  match flat m with
  | [] => Raise ValueError
  | x :: xs => Ok (fold_left maximum xs x)
  end.

(** [np.min(m)] *)
Definition min (m : matrix) : res num :=
  match flat m with
  | [] => Raise ValueError
  | x :: xs => Ok (fold_left minimum xs x)
  end.

(** [np.sum] of a float array *)
Definition sum (xs : list num) : num := fold_right nadd (Fin 0) xs.

(** [np.sum(m > 0)]: the number of elements greater than zero. *)
Definition count_positive (m : matrix) : nat :=
  List.length (filter (fun x => ngt x (Fin 0)) (flat m)).

(** [np.mean(m)] *)
Definition mean (m : matrix) : num := sum (flat m) / of_nat (size m).

(** [np.std(m)] with the default [ddof=0]: the root of the mean of the
    squared deviations from the mean. *)
Definition std (m : matrix) : num :=
  let arrmean := sum (flat m) / of_nat (size m) in
  let x := map (fun v => v - arrmean) (flat m) in
  let x := map (fun v => v * v) x in
  let ret := sum x / of_nat (size m) in
  nsqrt ret.

(** [m[i, j]] for indices that are not negative *)
Definition get (m : matrix) (i j : nat) : res num :=
  match nth_error m i with
  | None => Raise IndexError
  | Some row =>
      match nth_error row j with
      | None => Raise IndexError
      | Some x => Ok x
      end
  end.

(** [m / c * 100], element by element *)
Definition scale_pct (m : matrix) (c : num) : matrix :=
  map (map (fun x => x / c * Fin 100)) m.

End Np.

(** ** The risk metrics on binary64 numbers *)

Module Binary64.

Import PrimFloat.
Local Open Scope float_scope.

(** A two-dimensional array of binary64 numbers, as the list of its rows. *)
Definition matrix : Type := list (list float).

Definition flat (m : matrix) : list float := List.concat m.

(** [m.size], as the float that divides a sum *)
Definition size (m : matrix) : float :=
  of_uint63 (Uint63.of_Z (Z.of_nat (List.length (flat m)))).

(** The sum of an array: numpy adds fewer than 8 elements one after the
    other, from 0. *)
Definition sum (xs : list float) : float := fold_left add xs 0%float.

(** [np.mean(m)] *)
Definition mean (m : matrix) : float := sum (flat m) / size m.

(** [np.std(m)] with the default [ddof=0] *)
Definition std (m : matrix) : float :=
  let arrmean := sum (flat m) / size m in
  let x := map (fun v => v - arrmean) (flat m) in
  let x := map (fun v => v * v) x in
  let ret := sum x / size m in
  sqrt ret.

(** The risk metrics: [pnl_std], [pnl_mean] and [sharpe_approx]. *)
Definition sharpe_approx (pnl_matrix : matrix) : float :=
  let pnl_std := std pnl_matrix in
  let pnl_mean := mean pnl_matrix in
  if ltb 0%float pnl_std then pnl_mean / pnl_std else 0%float.


End Binary64.

(** [enumerate(l)] *)
Definition enumerate {A : Type} (l : list A) : list (nat * A) :=
  combine (seq 0 (List.length l)) l.

(** A [for] loop over [l] whose body updates the state [s] and may raise. *)
Fixpoint for_each {A St : Type} (l : list A) (body : A -> St -> res St) (s : St) : res St :=
  match l with
  | [] => Ok s
  | a :: l' => s' <- body a s ;; for_each l' body s'
  end.

(** ** The heatmap section of the script *)

Section Heatmap.

Local Open Scope num_scope.

(** [spot_min], [spot_max], [vol_min], [vol_max]: the ends of the two
    axes.  A range is the pair of integer percentages of a slider. *)
Definition spot_min (S : num) (spot_range : Z * Z) : num :=
  S * (Fin 1 + of_Z (fst spot_range) / Fin 100).

Definition spot_max (S : num) (spot_range : Z * Z) : num :=
  S * (Fin 1 + of_Z (snd spot_range) / Fin 100).

Definition vol_min (sigma : num) (vol_range : Z * Z) : num :=
  py_max (Fin 0.01) (sigma * (Fin 1 + of_Z (fst vol_range) / Fin 100)).

Definition vol_max (sigma : num) (vol_range : Z * Z) : num :=
  sigma * (Fin 1 + of_Z (snd vol_range) / Fin 100).

Definition spot_prices (S : num) (spot_range : Z * Z) (grid_size : nat) : list num :=
  Np.linspace (spot_min S spot_range) (spot_max S spot_range) grid_size.

Definition volatilities (sigma : num) (vol_range : Z * Z) (grid_size : nat) : list num :=
  Np.linspace (vol_min sigma vol_range) (vol_max sigma vol_range) grid_size.

(** The P&L of one scenario against the price the option has now. *)
Definition pnl_of (position : string) (new_price option_price : num) : num :=
  if position =? "Long"
  then new_price - option_price
  else option_price - new_price.

(** The body of the double loop: the price and the P&L stored at [i, j]. *)
Definition grid_cell (option_type : string) (K T r : num) (position : string)
    (option_price vol spot : num) : res (num * num) :=
  new_price <- option_price_of np_float64 option_type spot K T r vol ;;
  Ok (new_price, pnl_of position new_price option_price).

(** The double loop over [volatilities] (rows) and [spot_prices] (columns). *)
Definition grid_cells (option_type : string) (K T r : num) (position : string)
    (option_price : num) (vols spots : list num) : res (list (list (num * num))) :=
  mapM (fun vol =>
          mapM (fun spot => grid_cell option_type K T r position option_price vol spot)
               spots)
       vols.

Definition price_matrix_of (cells : list (list (num * num))) : Np.matrix :=
  map (map fst) cells.

Definition pnl_matrix_of (cells : list (list (num * num))) : Np.matrix :=
  map (map snd) cells.

(** [z_data]: the matrix that the heatmap and the contour traces draw. *)
Definition z_data_of (heatmap_type : string) (pnl_matrix price_matrix : Np.matrix)
    (option_price : num) : Np.matrix :=
  if heatmap_type =? "P&L" then pnl_matrix
  else if heatmap_type =? "Option Price" then price_matrix
  else Np.scale_pct pnl_matrix option_price.

(** The test of one cell in the scan for breakeven points.  The state is
    the pair of lists [breakeven_spots], [breakeven_vols]. *)
Definition breakeven_cell (pnl_matrix : Np.matrix) (i : nat) (vol : num)
    (j : nat) (spot : num) (st : list num * list num) : res (list num * list num) :=
  let '(breakeven_spots, breakeven_vols) := st in
  x <- Np.get pnl_matrix i j ;;
  if nlt (nabs x) (Fin 0.01)
  then Ok ((breakeven_spots ++ [spot])%list,
           (breakeven_vols ++ [vol * Fin 100])%list)
  else Ok (breakeven_spots, breakeven_vols).

(** The scan: the double loop over the enumerated axes. *)
Definition breakeven_scan (pnl_matrix : Np.matrix) (vols spots : list num)
  : res (list num * list num) :=
  for_each (enumerate vols)
    (fun '(i, vol) st =>
       for_each (enumerate spots)
         (fun '(j, spot) st' => breakeven_cell pnl_matrix i vol j spot st')
         st)
    ([], []).

(** [heatmap_type in ["P&L", "% P&L"]] *)
Definition is_pnl_heatmap (heatmap_type : string) : bool :=
  existsb (String.eqb heatmap_type) ["P&L"; "% P&L"].

(** The breakeven markers: [None] where the script skips the scan. *)
Definition breakeven_of (show_breakeven : bool) (heatmap_type : string)
    (pnl_matrix : Np.matrix) (vols spots : list num)
  : res (option (list num * list num)) :=
  if show_breakeven && is_pnl_heatmap heatmap_type
  then pts <- breakeven_scan pnl_matrix vols spots ;; Ok (Some pts)
  else Ok None.

Record summary : Type := mk_summary {
  max_profit : num;
  max_loss : num;
  profit_prob : num;
  pnl_std : num;
  pnl_mean : num;
  sharpe_approx : num
}.

(** The summary statistics under the chart. *)
Definition summary_of (pnl_matrix : Np.matrix) : res summary :=
  max_profit <- Np.max pnl_matrix ;;
  max_loss <- Np.min pnl_matrix ;;
  let profit_prob :=
    of_nat (Np.count_positive pnl_matrix) / of_nat (Np.size pnl_matrix) * Fin 100 in
  let pnl_std := Np.std pnl_matrix in
  let pnl_mean := Np.mean pnl_matrix in
  let sharpe_approx :=
    if ngt pnl_std (Fin 0) then pnl_mean / pnl_std else Fin 0 in
  Ok (mk_summary max_profit max_loss profit_prob pnl_std pnl_mean sharpe_approx).

Record outputs : Type := mk_outputs {
  option_price : num;
  option_greeks : greeks;
  axis_spots : list num;
  axis_vols : list num;
  price_matrix : Np.matrix;
  pnl_matrix : Np.matrix;
  z_data : Np.matrix;
  breakeven : option (list num * list num);
  stats : summary
}.

(** One run of the script, from the sidebar inputs and the heatmap
    settings to what the pricing column and the heatmap column display
    (the two sensitivity charts that follow only repeat the pricing
    dispatch).  [r] and [sigma] are the inputs already divided by 100. *)
Definition run (S K T r sigma : num) (option_type : string)
    (spot_range vol_range : Z * Z) (grid_size : nat)
    (position heatmap_type : string) (show_breakeven : bool) : res outputs :=
  option_price <- option_price_of py_float option_type S K T r sigma ;;
  greeks <- calculate_greeks py_float S K T r sigma option_type ;;
  let spots := spot_prices S spot_range grid_size in
  let vols := volatilities sigma vol_range grid_size in
  cells <- grid_cells option_type K T r position option_price vols spots ;;
  let price_matrix := price_matrix_of cells in
  let pnl_matrix := pnl_matrix_of cells in
  let z_data := z_data_of heatmap_type pnl_matrix price_matrix option_price in
  breakeven <- breakeven_of show_breakeven heatmap_type pnl_matrix vols spots ;;
  stats <- summary_of pnl_matrix ;;
  Ok (mk_outputs option_price greeks spots vols price_matrix pnl_matrix z_data
                 breakeven stats).

End Heatmap.

(** ** The sensitivity analysis of the script *)

Section Sensitivity.

Local Open Scope num_scope.

(** [spot_range_analysis]: 100 spots from 70 % to 130 % of [S]. *)
Definition spot_range_analysis (S : num) : list num :=
  Np.linspace (S * Fin 0.7) (S * Fin 1.3) 100.

(** [prices]: the price at each of these spots, an element of a numpy
    array, at the volatility of the sidebar. *)
Definition prices (option_type : string) (S K T r sigma : num) : res (list num) :=
  if option_type =? "call"
  then mapM (fun spot => black_scholes_call np_float64 spot K T r sigma)
            (spot_range_analysis S)
  else mapM (fun spot => black_scholes_put np_float64 spot K T r sigma)
            (spot_range_analysis S).

(** [vol_range_analysis]: 100 volatilities from 5 % to 100 %. *)
Definition vol_range_analysis : list num :=
  Np.linspace (Fin 0.05) (Fin 1.0) 100.

(** [vol_prices]: the price at each of these volatilities, at the spot of
    the sidebar, a builtin float. *)
Definition vol_prices (option_type : string) (S K T r : num) : res (list num) :=
  if option_type =? "call"
  then mapM (fun vol => black_scholes_call py_float S K T r vol) vol_range_analysis
  else mapM (fun vol => black_scholes_put py_float S K T r vol) vol_range_analysis.

End Sensitivity.

(** * Vocabulary of the properties *)

(** ** The closed form, in the words of the specification *)

Module Spec.

Definition d1 (S K T r sigma : R) : R :=
  (ln (S / K) + (r + 0.5 * sigma ^ 2) * T) / (sigma * sqrt T).

Definition d2 (S K T r sigma : R) : R :=
  d1 S K T r sigma - sigma * sqrt T.

Definition call (S K T r sigma : R) : R :=
  S * Normal.cdf (d1 S K T r sigma)
  - K * exp (- (r * T)) * Normal.cdf (d2 S K T r sigma).

Definition put (S K T r sigma : R) : R :=
  K * exp (- (r * T)) * Normal.cdf (- d2 S K T r sigma)
  - S * Normal.cdf (- d1 S K T r sigma).

(** The price of a call, or of a put for any other option type. *)
Definition price (option_type : string) (S K T r sigma : R) : R :=
  if option_type =? "call" then call S K T r sigma else put S K T r sigma.

End Spec.

(** The outcome is a number: neither an exception, nor NaN, nor an infinity. *)
Definition defined_result (m : res num) : Prop := exists x : R, m = Ok (Fin x).

(** Each sample is smaller than every later one. *)
Definition strictly_increasing (l : list num) : Prop :=
  forall (i j : nat) (x y : num),
    (i < j)%nat -> nth_error l i = Some x -> nth_error l j = Some y ->
    nlt x y = true.

(** The value of an outcome; used only where the outcome is not an exception. *)
Definition value_of (m : res num) : num :=
  match m with
  | Ok x => x
  | Raise _ => NaN
  end.

(** The price of the scenario ([vol], [spot]). *)
Definition scenario_price (option_type : string) (K T r vol spot : num) : num :=
  value_of (option_price_of np_float64 option_type spot K T r vol).

(** [m] has [rows] rows of [cols] elements. *)
Definition shaped (m : Np.matrix) (rows cols : nat) : Prop :=
  List.length m = rows /\ Forall (fun row => List.length row = cols) m.

(** The points of row [i], in the order of the columns [js]. *)
Definition row_points (m : Np.matrix) (i : nat) (vol : num) (js : list (nat * num))
  : list (num * num) :=
  flat_map (fun '(j, spot) =>
              match Np.get m i j with
              | Ok x => if nlt (nabs x) (Fin 0.01)
                        then [(spot, (vol * Fin 100)%num)] else []
              | Raise _ => []
              end) js.

(** The points of the whole matrix, row by row. *)
Definition matrix_points (m : Np.matrix) (vols spots : list num) : list (num * num) :=
  flat_map (fun '(i, vol) => row_points m i vol (enumerate spots)) (enumerate vols).

(** The statistics of a list of reals, in the words of the specification. *)
Module Stats.

Definition total (xs : list R) : R := fold_right Rplus 0 xs.

Definition mean (xs : list R) : R := total xs / INR (List.length xs).

(** Population variance and standard deviation: the divisor is the number
    of elements. *)
Definition variance (xs : list R) : R :=
  total (map (fun x => (x - mean xs) * (x - mean xs)) xs) / INR (List.length xs).

Definition std (xs : list R) : R := sqrt (variance xs).

Definition is_maximum (m : R) (xs : list R) : Prop :=
  In m xs /\ forall x, In x xs -> x <= m.

Definition is_minimum (m : R) (xs : list R) : Prop :=
  In m xs /\ forall x, In x xs -> m <= x.

Definition positive (x : R) : bool := if Rlt_dec 0 x then true else false.

(** The number of elements that are strictly greater than zero. *)
Definition count_positive (xs : list R) : nat := List.length (filter positive xs).

End Stats.

(** * Properties *)

(** ** The normal distribution *)

Module NormalFacts.

Import Normal.

Lemma half_mass_irrel (a b : R) (Ha : 0 <= a) (Hb : 0 <= b) :
  a = b -> half_mass a Ha = half_mass b Hb.
Proof. intros ->. apply RiemannInt_P5. Qed.

Lemma half_mass_0 (H : 0 <= 0) : half_mass 0 H = 0.
Proof. apply RiemannInt_P9. Qed.

Lemma cdf_0 : cdf 0 = 1 / 2.
Proof.
  unfold cdf. destruct (Rle_dec 0 0) as [H | H]; [| exfalso; apply H; lra].
  rewrite half_mass_0. lra.
Qed.

Lemma cdf_nonneg_eq (x : R) (H : 0 <= x) : cdf x = 1 / 2 + half_mass x H.
Proof.
  unfold cdf. destruct (Rle_dec 0 x) as [H' | H']; [| exfalso; apply H'; exact H].
  f_equal. now apply half_mass_irrel.
Qed.

Lemma cdf_neg_eq (x : R) (H : 0 <= - x) : x <> 0 -> cdf x = 1 / 2 - half_mass (- x) H.
Proof.
  intro Hx. unfold cdf. destruct (Rle_dec 0 x) as [H' | H']; [exfalso; clear - H H' Hx; lra |].
  f_equal. now apply half_mass_irrel.
Qed.

(** Symmetry of the normal distribution: [cdf(-x) = 1 - cdf(x)]. *)
Lemma cdf_opp (x : R) : cdf (- x) = 1 - cdf x.
Proof.
  destruct (Rtotal_order x 0) as [Hx | [-> | Hx]].
  - assert (H1 : 0 <= - x) by lra.
    rewrite (cdf_nonneg_eq (- x) H1), (cdf_neg_eq x H1) by lra. lra.
  - rewrite Ropp_0, cdf_0. lra.
  - assert (H1 : 0 <= x) by lra.
    assert (H2 : 0 <= - - x) by lra.
    rewrite (cdf_nonneg_eq x H1), (cdf_neg_eq (- x) H2) by lra.
    rewrite (half_mass_irrel (- - x) x H2 H1) by lra. lra.
Qed.

Lemma pdf_pos (x : R) : 0 < pdf x.
Proof.
  unfold pdf. apply Rdiv_lt_0_compat; [apply exp_pos |].
  apply sqrt_lt_R0. generalize PI_RGT_0; lra.
Qed.

Lemma pdf_decr (x y : R) : 0 <= x <= y -> pdf y <= pdf x.
Proof.
  intros [Hx Hy]. unfold pdf.
  apply Rmult_le_compat_r.
  - left. apply Rinv_0_lt_compat, sqrt_lt_R0. generalize PI_RGT_0; lra.
  - destruct (Req_dec x y) as [-> | Hne]; [lra |].
    left. apply exp_increasing. nra.
Qed.

(** The mass of [[0, a]] is at least the area of the rectangle under the
    density at [a]; in particular it is positive for [a > 0]. *)
Lemma half_mass_lower (a : R) (Ha : 0 <= a) : a * pdf a <= half_mass a Ha.
Proof.
  unfold half_mass.
  rewrite <- (Rminus_0_r a) at 1. rewrite Rmult_comm.
  rewrite <- (RiemannInt_P15 (RiemannInt_P14 0 a (pdf a))).
  apply RiemannInt_P19; [exact Ha |].
  intros x Hx. unfold fct_cte. apply pdf_decr. lra.
Qed.

Lemma half_mass_pos (a : R) (Ha : 0 <= a) : 0 < a -> 0 < half_mass a Ha.
Proof.
  intro H. apply Rlt_le_trans with (a * pdf a); [| apply half_mass_lower].
  apply Rmult_lt_0_compat; [exact H | apply pdf_pos].
Qed.

Lemma half_mass_mono (a b : R) (Ha : 0 <= a) (Hb : 0 <= b) :
  a < b -> half_mass a Ha < half_mass b Hb.
Proof.
  intro Hab. unfold half_mass.
  assert (Hi : Riemann_integrable pdf a b).
  { apply continuity_implies_RiemannInt; [lra | intros x _; apply pdf_continuity]. }
  rewrite <- (RiemannInt_P26 (pdf_integrable a Ha) Hi (pdf_integrable b Hb)).
  assert (0 < RiemannInt Hi); [| lra].
  apply Rlt_le_trans with ((b - a) * pdf b).
  - apply Rmult_lt_0_compat; [lra | apply pdf_pos].
  - rewrite Rmult_comm.
    rewrite <- (RiemannInt_P15 (RiemannInt_P14 a b (pdf b))).
    apply RiemannInt_P19; [lra |].
    intros x Hx. unfold fct_cte. apply pdf_decr. lra.
Qed.

(** The distribution function is strictly increasing. *)
Lemma cdf_increasing (x y : R) : x < y -> cdf x < cdf y.
Proof.
  intro Hxy.
  destruct (Rle_dec 0 x) as [Hx | Hx].
  - assert (Hy : 0 <= y) by lra.
    rewrite (cdf_nonneg_eq x Hx), (cdf_nonneg_eq y Hy).
    generalize (half_mass_mono x y Hx Hy Hxy). lra.
  - assert (Hx' : 0 <= - x) by lra.
    rewrite (cdf_neg_eq x Hx') by lra.
    destruct (Rle_dec 0 y) as [Hy | Hy].
    + rewrite (cdf_nonneg_eq y Hy).
      assert (0 < half_mass (- x) Hx') by (apply half_mass_pos; lra).
      assert (0 <= half_mass y Hy); [| lra].
      destruct (Req_dec y 0) as [E | E].
      * subst y. rewrite half_mass_0. lra.
      * left. apply half_mass_pos. lra.
    + assert (Hy' : 0 <= - y) by lra.
      rewrite (cdf_neg_eq y Hy') by lra.
      assert (half_mass (- y) Hy' < half_mass (- x) Hx') by (apply half_mass_mono; lra).
      lra.
Qed.

End NormalFacts.

(** ** Arithmetic on finite values *)

Lemma ndiv_fin (x y : R) : y <> 0 -> (Fin x / Fin y)%num = Fin (x / y).
Proof.
  intro H. unfold ndiv. destruct (Req_dec_T y 0) as [E | _]; [contradiction | reflexivity].
Qed.

Lemma nlog_fin (x : R) : 0 < x -> nlog (Fin x) = Fin (ln x).
Proof.
  intro H. unfold nlog. destruct (Rlt_dec 0 x) as [_ | N]; [reflexivity | contradiction].
Qed.

Lemma nlog_negative (x : R) : x < 0 -> nlog (Fin x) = NaN.
Proof.
  intro H. unfold nlog.
  destruct (Rlt_dec 0 x) as [P | _]; [lra |].
  destruct (Req_dec_T x 0) as [E | _]; [lra | reflexivity].
Qed.

Lemma nsqrt_fin (x : R) : 0 <= x -> nsqrt (Fin x) = Fin (sqrt x).
Proof.
  intro H. unfold nsqrt. destruct (Rlt_dec x 0) as [N | _]; [lra | reflexivity].
Qed.

Lemma nsqrt_negative (x : R) : x < 0 -> nsqrt (Fin x) = NaN.
Proof.
  intro H. unfold nsqrt. destruct (Rlt_dec x 0) as [_ | N]; [reflexivity | contradiction].
Qed.

Lemma truediv_fin (ty : float_type) (x y : R) :
  y <> 0 -> truediv ty (Fin x) (Fin y) = Ok (Fin (x / y)).
Proof.
  intro H. unfold truediv.
  destruct ty; [destruct (Req_dec_T y 0) as [E | _]; [contradiction |] |];
    now rewrite ndiv_fin.
Qed.

Lemma nlt_fin (x y : R) : nlt (Fin x) (Fin y) = true <-> x < y.
Proof.
  unfold nlt. destruct (Rlt_dec x y); split; intros; try easy; contradiction.
Qed.

(** What the two pricing functions compute once the division [S / K], the
    logarithm, the root and the division by [sigma * sqrt(T)] are all
    defined.  [sigma] only has to be non-zero. *)
Lemma pricing_finite (ty : float_type) (S K T r sigma : R) :
  0 < S / K -> K <> 0 -> 0 < T -> sigma <> 0 ->
  black_scholes_call ty (Fin S) (Fin K) (Fin T) (Fin r) (Fin sigma)
    = Ok (Fin (Spec.call S K T r sigma))
  /\ black_scholes_put ty (Fin S) (Fin K) (Fin T) (Fin r) (Fin sigma)
    = Ok (Fin (Spec.put S K T r sigma)).
Proof.
  intros HSK HK HT Hs.
  assert (Hq : sqrt T <> 0) by (apply Rgt_not_eq, sqrt_lt_R0; exact HT).
  assert (Hden : sigma * sqrt T <> 0) by (apply Rmult_integral_contrapositive; tauto).
  assert (Hd1 : (ln (S / K) + (r + 0.5 * (sigma * sigma)) * T) / (sigma * sqrt T)
                = Spec.d1 S K T r sigma).
  { unfold Spec.d1. simpl pow. now rewrite Rmult_1_r. }
  assert (Hexp : - r * T = - (r * T)) by ring.
  unfold black_scholes_call, black_scholes_put.
  rewrite truediv_fin by exact HK. cbn [bind].
  rewrite nlog_fin by exact HSK.
  rewrite nsqrt_fin by lra.
  cbn [nsquare nmul nadd nneg].
  rewrite ndiv_fin by exact Hden.
  cbn [nsub nmul nneg ncdf nexp].
  rewrite Hd1, Hexp. split; reflexivity.
Qed.

(** C1. For S > 0, K > 0, T > 0, r >= 0 and sigma > 0 the two pricing
    functions return the closed-form Black-Scholes values: with
    d1 = (ln(S/K) + (r + 0.5 sigma^2) T) / (sigma sqrt T) and
    d2 = d1 - sigma sqrt T, the call is S Phi(d1) - K e^(-rT) Phi(d2) and
    the put is K e^(-rT) Phi(-d2) - S Phi(-d1). *)
Theorem black_scholes_closed_form (ty : float_type) (S K T r sigma : R) :
  0 < S -> 0 < K -> 0 < T -> 0 <= r -> 0 < sigma ->
  black_scholes_call ty (Fin S) (Fin K) (Fin T) (Fin r) (Fin sigma)
    = Ok (Fin (S * Normal.cdf (Spec.d1 S K T r sigma)
               - K * exp (- (r * T)) * Normal.cdf (Spec.d2 S K T r sigma)))
  /\ black_scholes_put ty (Fin S) (Fin K) (Fin T) (Fin r) (Fin sigma)
    = Ok (Fin (K * exp (- (r * T)) * Normal.cdf (- Spec.d2 S K T r sigma)
               - S * Normal.cdf (- Spec.d1 S K T r sigma))).
Proof.
  intros HS HK HT _ Hs.
  apply pricing_finite; try lra.
  apply Rdiv_lt_0_compat; assumption.
Qed.

Lemma black_scholes_closed_form_witness :
  black_scholes_call py_float (Fin 100) (Fin 100) (Fin 0.25) (Fin 0.05) (Fin 0.2)
    = Ok (Fin (100 * Normal.cdf (Spec.d1 100 100 0.25 0.05 0.2)
               - 100 * exp (- (0.05 * 0.25)) * Normal.cdf (Spec.d2 100 100 0.25 0.05 0.2)))
  /\ black_scholes_put py_float (Fin 100) (Fin 100) (Fin 0.25) (Fin 0.05) (Fin 0.2)
    = Ok (Fin (100 * exp (- (0.05 * 0.25)) * Normal.cdf (- Spec.d2 100 100 0.25 0.05 0.2)
               - 100 * Normal.cdf (- Spec.d1 100 100 0.25 0.05 0.2))).
Proof.
  apply (black_scholes_closed_form py_float 100 100 0.25 0.05 0.2); lra.
Defined.

(** X20. Put-call parity of the two formulas: for S > 0, K > 0, T > 0 and
    sigma > 0 the call price minus the put price at the same parameters is
    S - K e^(-rT).  This is an identity of exact arithmetic; it says
    nothing of the size of the rounding errors of the program. *)
Theorem put_call_parity (ty : float_type) (S K T r sigma : R) :
  0 < S -> 0 < K -> 0 < T -> 0 < sigma ->
  exists c p : R,
    black_scholes_call ty (Fin S) (Fin K) (Fin T) (Fin r) (Fin sigma) = Ok (Fin c)
    /\ black_scholes_put ty (Fin S) (Fin K) (Fin T) (Fin r) (Fin sigma) = Ok (Fin p)
    /\ c - p = S - K * exp (- (r * T)).
Proof.
  intros HS HK HT Hs.
  destruct (pricing_finite ty S K T r sigma) as [Hc Hp]; try lra.
  { apply Rdiv_lt_0_compat; assumption. }
  exists (Spec.call S K T r sigma), (Spec.put S K T r sigma).
  split; [exact Hc |]. split; [exact Hp |].
  unfold Spec.call, Spec.put. rewrite !NormalFacts.cdf_opp. ring.
Qed.

Lemma put_call_parity_witness :
  exists c p : R,
    black_scholes_call np_float64 (Fin 100) (Fin 90) (Fin 0.25) (Fin 0.05) (Fin 0.2)
      = Ok (Fin c)
    /\ black_scholes_put np_float64 (Fin 100) (Fin 90) (Fin 0.25) (Fin 0.05) (Fin 0.2)
      = Ok (Fin p)
    /\ c - p = 100 - 90 * exp (- (0.05 * 0.25)).
Proof.
  apply (put_call_parity np_float64 100 90 0.25 0.05 0.2); lra.
Defined.

(** ** Inputs outside the domain *)

(** NaN absorbs every arithmetic operation. *)
Lemma nadd_nan_l (b : num) : (NaN + b)%num = NaN.
Proof. reflexivity. Qed.

Lemma nsub_nan_l (b : num) : (NaN - b)%num = NaN.
Proof. reflexivity. Qed.

Lemma nsub_nan_r (a : num) : (a - NaN)%num = NaN.
Proof. now destruct a. Qed.

Lemma nmul_nan_r (a : num) : (a * NaN)%num = NaN.
Proof. now destruct a. Qed.

Lemma ndiv_nan_l (b : num) : (NaN / b)%num = NaN.
Proof. reflexivity. Qed.

Lemma ndiv_nan_r (a : num) : (a / NaN)%num = NaN.
Proof. now destruct a. Qed.

(** Once the logarithm or the root is NaN, so are [d1], [d2] and both
    prices. *)
Lemma pricing_nan (ty : float_type) (S K T r sigma q : num) :
  truediv ty S K = Ok q ->
  nlog q = NaN \/ nsqrt T = NaN ->
  black_scholes_call ty S K T r sigma = Ok NaN
  /\ black_scholes_put ty S K T r sigma = Ok NaN.
Proof.
  intros Hq H.
  unfold black_scholes_call, black_scholes_put.
  rewrite Hq. cbn [bind].
  destruct H as [H | H]; rewrite H.
  - rewrite nadd_nan_l, ndiv_nan_l, nsub_nan_l. cbn [nneg ncdf].
    rewrite !nmul_nan_r, nsub_nan_r. split; reflexivity.
  - rewrite nmul_nan_r, ndiv_nan_r, nsub_nan_l. cbn [nneg ncdf].
    rewrite !nmul_nan_r, nsub_nan_r. split; reflexivity.
Qed.

(** C9, as stated, fails: a negative volatility is priced like any other.
    With sigma = -0.2 (and S = K = 100, T = 0.25, r = 0.05) nothing in the
    formula is undefined and the call price is the closed form at that
    sigma. *)
Lemma negative_sigma_is_priced :
  -0.2 <= 0
  /\ defined_result
       (black_scholes_call py_float (Fin 100) (Fin 100) (Fin 0.25) (Fin 0.05) (Fin (-0.2)))
  /\ defined_result
       (black_scholes_put py_float (Fin 100) (Fin 100) (Fin 0.25) (Fin 0.05) (Fin (-0.2))).
Proof.
  split; [lra |].
  destruct (pricing_finite py_float 100 100 0.25 0.05 (-0.2)) as [Hc Hp]; try lra.
  unfold defined_result. rewrite Hc, Hp. split; eexists; reflexivity.
Qed.

(** C9, amended.  The pricing functions neither clamp nor guard their
    inputs.  They produce no number when K = 0 and S is a builtin float
    (ZeroDivisionError), when S/K < 0 (NaN from the logarithm) and when
    T < 0 (NaN from the root).  They do produce a number, the closed form,
    when sigma is negative, provided S/K > 0 and T > 0. *)
Theorem pricing_unguarded (ty : float_type) (S K T r sigma : R) :
  (K = 0 ->
     black_scholes_call py_float (Fin S) (Fin K) (Fin T) (Fin r) (Fin sigma)
       = Raise ZeroDivisionError
     /\ black_scholes_put py_float (Fin S) (Fin K) (Fin T) (Fin r) (Fin sigma)
       = Raise ZeroDivisionError)
  /\ (K <> 0 -> S / K < 0 ->
     black_scholes_call ty (Fin S) (Fin K) (Fin T) (Fin r) (Fin sigma) = Ok NaN
     /\ black_scholes_put ty (Fin S) (Fin K) (Fin T) (Fin r) (Fin sigma) = Ok NaN)
  /\ (T < 0 -> K <> 0 \/ ty = np_float64 ->
     black_scholes_call ty (Fin S) (Fin K) (Fin T) (Fin r) (Fin sigma) = Ok NaN
     /\ black_scholes_put ty (Fin S) (Fin K) (Fin T) (Fin r) (Fin sigma) = Ok NaN)
  /\ (sigma < 0 -> 0 < S / K -> K <> 0 -> 0 < T ->
     black_scholes_call ty (Fin S) (Fin K) (Fin T) (Fin r) (Fin sigma)
       = Ok (Fin (Spec.call S K T r sigma))
     /\ black_scholes_put ty (Fin S) (Fin K) (Fin T) (Fin r) (Fin sigma)
       = Ok (Fin (Spec.put S K T r sigma))).
Proof.
  repeat apply conj.
  - intros ->. unfold black_scholes_call, black_scholes_put, truediv.
    destruct (Req_dec_T 0 0) as [_ | N]; [split; reflexivity | now contradiction N].
  - intros HK Hneg.
    apply pricing_nan with (q := Fin (S / K)).
    + now apply truediv_fin.
    + left. now apply nlog_negative.
  - intros HT [HK | ->].
    + apply pricing_nan with (q := Fin (S / K)).
      * now apply truediv_fin.
      * right. now apply nsqrt_negative.
    + apply pricing_nan with (q := (Fin S / Fin K)%num).
      * reflexivity.
      * right. now apply nsqrt_negative.
  - intros Hs HSK HK HT. apply pricing_finite; try assumption. lra.
Qed.

Lemma pricing_unguarded_witness :
  (black_scholes_call py_float (Fin 100) (Fin 0) (Fin 0.25) (Fin 0.05) (Fin 0.2)
     = Raise ZeroDivisionError)
  /\ (black_scholes_put np_float64 (Fin (-100)) (Fin 100) (Fin 0.25) (Fin 0.05) (Fin 0.2)
     = Ok NaN)
  /\ (black_scholes_call py_float (Fin 100) (Fin 100) (Fin (-0.25)) (Fin 0.05) (Fin 0.2)
     = Ok NaN)
  /\ (black_scholes_call py_float (Fin 100) (Fin 100) (Fin 0.25) (Fin 0.05) (Fin (-0.2))
     = Ok (Fin (Spec.call 100 100 0.25 0.05 (-0.2)))).
Proof.
  repeat apply conj.
  - destruct (pricing_unguarded py_float 100 0 0.25 0.05 0.2) as (H & _).
    apply H. reflexivity.
  - destruct (pricing_unguarded np_float64 (-100) 100 0.25 0.05 0.2) as (_ & H & _).
    apply H; lra.
  - destruct (pricing_unguarded py_float 100 100 (-0.25) 0.05 0.2) as (_ & _ & H & _).
    apply H; [lra | left; lra].
  - destruct (pricing_unguarded py_float 100 100 0.25 0.05 (-0.2)) as (_ & _ & _ & H).
    apply H; lra.
Defined.

(** ** Dispatch on the option type *)

(** C10. Every option type other than "call" is treated as a put:
    [calculate_greeks] returns the put Greeks (delta = Phi(d1) - 1, the
    put theta and the put rho) and the pricing dispatch calls
    [black_scholes_put]. *)
Theorem not_call_means_put (ty : float_type) (S K T r sigma : num)
    (option_type : string) :
  option_type <> "call" ->
  calculate_greeks ty S K T r sigma option_type
    = calculate_greeks ty S K T r sigma "put"
  /\ option_price_of ty option_type S K T r sigma
    = black_scholes_put ty S K T r sigma
  /\ forall q : num,
       truediv ty S K = Ok q ->
       let d1 := ((nlog q + (r + Fin 0.5 * nsquare sigma) * T) / (sigma * nsqrt T))%num in
       let d2 := (d1 - sigma * nsqrt T)%num in
       exists g : greeks,
         calculate_greeks ty S K T r sigma option_type = Ok g
         /\ delta g = (ncdf d1 - Fin 1)%num
         /\ theta g = ((- S * npdf d1 * sigma / (Fin 2 * nsqrt T)
                        + r * K * nexp (- r * T) * ncdf (- d2)) / Fin 365)%num
         /\ rho g = (- K * T * nexp (- r * T) * ncdf (- d2) / Fin 100)%num.
Proof.
  intro Hne.
  apply String.eqb_neq in Hne.
  unfold calculate_greeks, option_price_of.
  rewrite Hne.
  change ("put" =? "call") with false.
  repeat split.
  intros q Hq. rewrite Hq. cbn [bind].
  eexists. split; [reflexivity |]. cbn [delta theta rho]. repeat split.
Qed.

Lemma not_call_means_put_witness :
  calculate_greeks py_float (Fin 100) (Fin 100) (Fin 0.25) (Fin 0.05) (Fin 0.2) "Put"
    = calculate_greeks py_float (Fin 100) (Fin 100) (Fin 0.25) (Fin 0.05) (Fin 0.2) "put"
  /\ option_price_of py_float "Put" (Fin 100) (Fin 100) (Fin 0.25) (Fin 0.05) (Fin 0.2)
    = black_scholes_put py_float (Fin 100) (Fin 100) (Fin 0.25) (Fin 0.05) (Fin 0.2).
Proof.
  destruct (not_call_means_put py_float (Fin 100) (Fin 100) (Fin 0.25) (Fin 0.05)
              (Fin 0.2) "Put") as (H1 & H2 & _).
  - discriminate.
  - split; [exact H1 | exact H2].
Defined.

(** ** The axes of the grid *)

Lemma removelast_map_seq {A : Type} (f : nat -> A) (m : nat) :
  removelast (map f (seq 0 (S m))) = map f (seq 0 m).
Proof.
  rewrite seq_S, map_app. cbn [map]. apply removelast_last.
Qed.

Lemma nth_error_map_seq {A : Type} (f : nat -> A) (n i : nat) (x : A) :
  nth_error (map f (seq 0 n)) i = Some x -> (i < n)%nat /\ x = f i.
Proof.
  rewrite nth_error_map, nth_error_seq.
  destruct (Nat.ltb_spec i n) as [Hlt | Hge]; cbn; [| discriminate].
  intros [= <-]. split; [exact Hlt | reflexivity].
Qed.

(** On finite ends [linspace] yields the samples
    [start + i * (stop - start) / (n - 1)], for [i = 0 .. n-1]. *)
Lemma linspace_fin (a b : R) (n : nat) :
  Np.linspace (Fin a) (Fin b) n
  = map (fun i => Fin (a + INR i * ((b - a) / INR (n - 1)))) (seq 0 n).
Proof.
  destruct n as [| [| m]].
  - reflexivity.
  - cbn. do 2 f_equal. lra.
  - unfold Np.linspace.
    replace (S (S m) - 1)%nat with (S m) by lia.
    change (0 <? S m)%nat with true. change (1 <? S (S m))%nat with true.
    cbv beta iota zeta.
    assert (Hd : INR (S m) <> 0) by (apply not_0_INR; discriminate).
    cbn [nsub]. unfold of_nat at 1. rewrite ndiv_fin by exact Hd.
    assert (E : map (fun v : num => (v + Fin a)%num)
        (if Np.is_zero (Fin ((b - a) / INR (S m)))
         then
          map (fun i : num => (i / of_nat (S m) * Fin (b - a))%num)
            (map of_nat (seq 0 (S (S m))))
         else
          map (fun i : num => (i * (Fin (b - a) / of_nat (S m)))%num)
            (map of_nat (seq 0 (S (S m)))))
        = map (fun i : nat => Fin (a + INR i * ((b - a) / INR (S m)))) (seq 0 (S (S m)))).
    { unfold Np.is_zero.
      destruct (Req_dec_T ((b - a) / INR (S m)) 0) as [Hz | Hnz];
        rewrite !map_map; apply map_ext; intro i; unfold of_nat;
        rewrite ndiv_fin by exact Hd; cbn [nmul nadd]; f_equal.
      - rewrite Hz.
        assert (b - a = 0).
        { apply Rmult_eq_reg_r with (/ INR (S m)); [| now apply Rinv_neq_0_compat].
          rewrite Rmult_0_l. exact Hz. }
        rewrite H. lra.
      - lra. }
    rewrite E, removelast_map_seq.
    rewrite (seq_S (S m)), map_app. cbn [map Nat.add].
    do 3 f_equal. field. exact Hd.
Qed.

Lemma py_max_fin (a b : R) : py_max (Fin a) (Fin b) = Fin (Rmax a b).
Proof.
  unfold py_max, ngt, nlt, Rmax.
  destruct (Rlt_dec a b), (Rle_dec a b); try reflexivity; f_equal; lra.
Qed.

Lemma axis_end_fin (x : R) (pct : Z) :
  (Fin x * (Fin 1 + of_Z pct / Fin 100))%num = Fin (x * (1 + IZR pct / 100)).
Proof.
  unfold of_Z. rewrite ndiv_fin by lra. reflexivity.
Qed.

(** The two axes for finite inputs. *)
Lemma spot_prices_fin (S : R) (lowPct highPct : Z) (N : nat) :
  let lower := S * (1 + IZR lowPct / 100) in
  let upper := S * (1 + IZR highPct / 100) in
  spot_prices (Fin S) (lowPct, highPct) N
  = map (fun i => Fin (lower + INR i * ((upper - lower) / INR (N - 1)))) (seq 0 N).
Proof.
  unfold spot_prices, spot_min, spot_max. cbn [fst snd].
  rewrite !axis_end_fin. apply linspace_fin.
Qed.

Lemma volatilities_fin (sigma : R) (lowPct highPct : Z) (N : nat) :
  let lower := Rmax 0.01 (sigma * (1 + IZR lowPct / 100)) in
  let upper := sigma * (1 + IZR highPct / 100) in
  volatilities (Fin sigma) (lowPct, highPct) N
  = map (fun i => Fin (lower + INR i * ((upper - lower) / INR (N - 1)))) (seq 0 N).
Proof.
  unfold volatilities, vol_min, vol_max. cbn [fst snd].
  rewrite !axis_end_fin, py_max_fin. apply linspace_fin.
Qed.

Lemma uniform_increasing (a step : R) (n : nat) :
  0 < step ->
  strictly_increasing (map (fun i => Fin (a + INR i * step)) (seq 0 n)).
Proof.
  intros Hs i j x y Hij Hi Hj.
  apply nth_error_map_seq in Hi, Hj.
  destruct Hi as [_ ->], Hj as [_ ->].
  apply nlt_fin. apply lt_INR in Hij. nra.
Qed.




(** ** The scenario grid *)

Lemma mapM_total {A B : Type} (f : A -> res B) (g : A -> B) (l : list A) :
  (forall a, f a = Ok (g a)) -> mapM f l = Ok (map g l).
Proof.
  intro H. induction l as [| a l IH]; [reflexivity |].
  cbn [mapM map]. rewrite H, IH. reflexivity.
Qed.

(** With a numpy operand nothing in the pricing functions raises. *)
Lemma numpy_pricing_total (option_type : string) (S K T r sigma : num) :
  option_price_of np_float64 option_type S K T r sigma
  = Ok (value_of (option_price_of np_float64 option_type S K T r sigma)).
Proof.
  unfold option_price_of, black_scholes_call, black_scholes_put.
  destruct (option_type =? "call"); reflexivity.
Qed.

Lemma grid_cells_total (option_type : string) (K T r : num) (position : string)
    (option_price : num) (vols spots : list num) :
  grid_cells option_type K T r position option_price vols spots
  = Ok (map (fun vol =>
               map (fun spot =>
                      (scenario_price option_type K T r vol spot,
                       pnl_of position (scenario_price option_type K T r vol spot)
                              option_price))
                   spots)
            vols).
Proof.
  unfold grid_cells. apply mapM_total. intro vol.
  apply mapM_total. intro spot.
  unfold grid_cell. rewrite numpy_pricing_total. reflexivity.
Qed.

Lemma get_map_map {A B : Type} (f : A -> B -> num) (rows : list A) (cols : list B)
    (i j : nat) (a : A) (b : B) :
  nth_error rows i = Some a -> nth_error cols j = Some b ->
  Np.get (map (fun a => map (fun b => f a b) cols) rows) i j = Ok (f a b).
Proof.
  intros Hi Hj. unfold Np.get.
  rewrite nth_error_map, Hi. cbn [option_map].
  rewrite nth_error_map, Hj. reflexivity.
Qed.

Lemma price_matrix_of_map {A B : Type} (p q : A -> B -> num) (rows : list A)
    (cols : list B) :
  price_matrix_of (map (fun a => map (fun b => (p a b, q a b)) cols) rows)
  = map (fun a => map (fun b => p a b) cols) rows.
Proof.
  unfold price_matrix_of. rewrite map_map. apply map_ext. intro a.
  now rewrite map_map.
Qed.

Lemma pnl_matrix_of_map {A B : Type} (p q : A -> B -> num) (rows : list A)
    (cols : list B) :
  pnl_matrix_of (map (fun a => map (fun b => (p a b, q a b)) cols) rows)
  = map (fun a => map (fun b => q a b) cols) rows.
Proof.
  unfold pnl_matrix_of. rewrite map_map. apply map_ext. intro a.
  now rewrite map_map.
Qed.

Lemma nneg_nsub (a b : num) : (- (a - b))%num = (b - a)%num.
Proof.
  destruct a, b; cbn; try reflexivity. f_equal. ring.
Qed.

(** C4. In every cell the P&L is price - anchor for a long position and
    anchor - price for a short one, so the short grid is the negation of
    the long grid, cell by cell, the other parameters being the same. *)
Theorem pnl_long_short (option_type : string) (K T r option_price : num)
    (vols spots : list num) :
  exists cells_long cells_short : list (list (num * num)),
    grid_cells option_type K T r "Long" option_price vols spots = Ok cells_long
    /\ grid_cells option_type K T r "Short" option_price vols spots = Ok cells_short
    /\ forall (i j : nat) (vol spot : num),
         nth_error vols i = Some vol -> nth_error spots j = Some spot ->
         exists price pnl_long pnl_short : num,
           option_price_of np_float64 option_type spot K T r vol = Ok price
           /\ Np.get (price_matrix_of cells_long) i j = Ok price
           /\ Np.get (price_matrix_of cells_short) i j = Ok price
           /\ Np.get (pnl_matrix_of cells_long) i j = Ok pnl_long
           /\ Np.get (pnl_matrix_of cells_short) i j = Ok pnl_short
           /\ pnl_long = (price - option_price)%num
           /\ pnl_short = (option_price - price)%num
           /\ pnl_short = (- pnl_long)%num.
Proof.
  do 2 eexists. split; [apply grid_cells_total |]. split; [apply grid_cells_total |].
  intros i j vol spot Hi Hj.
  exists (scenario_price option_type K T r vol spot).
  do 2 eexists.
  split; [apply numpy_pricing_total |].
  rewrite !price_matrix_of_map, !pnl_matrix_of_map.
  rewrite !(get_map_map _ vols spots i j vol spot Hi Hj).
  repeat split. unfold pnl_of. cbn. now rewrite nneg_nsub.
Qed.

Lemma pnl_long_short_witness :
  exists cells_long cells_short : list (list (num * num)),
    grid_cells "call" (Fin 100) (Fin 0.25) (Fin 0.05) "Long" (Fin 4) [Fin 0.2] [Fin 100]
      = Ok cells_long
    /\ grid_cells "call" (Fin 100) (Fin 0.25) (Fin 0.05) "Short" (Fin 4) [Fin 0.2] [Fin 100]
      = Ok cells_short
    /\ exists pnl_long pnl_short : num,
         Np.get (pnl_matrix_of cells_long) 0 0 = Ok pnl_long
         /\ Np.get (pnl_matrix_of cells_short) 0 0 = Ok pnl_short
         /\ pnl_short = (- pnl_long)%num.
Proof.
  destruct (pnl_long_short "call" (Fin 100) (Fin 0.25) (Fin 0.05) (Fin 4)
              [Fin 0.2] [Fin 100]) as (cl & cs & Hl & Hs & H).
  exists cl, cs. split; [exact Hl |]. split; [exact Hs |].
  destruct (H 0%nat 0%nat (Fin 0.2) (Fin 100) eq_refl eq_refl)
    as (price & pl & ps & _ & _ & _ & Hpl & Hps & _ & _ & Hneg).
  exists pl, ps. split; [exact Hpl |]. split; [exact Hps | exact Hneg].
Defined.

(** ** Breakeven points *)

Lemma shaped_get (m : Np.matrix) (rows cols i j : nat) :
  shaped m rows cols -> (i < rows)%nat -> (j < cols)%nat ->
  exists x, Np.get m i j = Ok x.
Proof.
  intros [Hr Hc] Hi Hj. unfold Np.get.
  destruct (nth_error m i) as [row |] eqn:Erow.
  - assert (Hlen : List.length row = cols).
    { rewrite Forall_forall in Hc. apply Hc. eapply nth_error_In, Erow. }
    destruct (nth_error row j) as [x |] eqn:Ex; [now exists x |].
    apply nth_error_None in Ex. lia.
  - apply nth_error_None in Erow. lia.
Qed.

Lemma in_combine_seq {A : Type} (l : list A) (s i : nat) (a : A) :
  In (i, a) (combine (seq s (List.length l)) l)
  <-> (s <= i)%nat /\ nth_error l (i - s) = Some a.
Proof.
  revert s. induction l as [| b l IH]; intro s; cbn [List.length seq combine In].
  - split; [tauto |]. intros [_ H]. now destruct (i - s)%nat.
  - rewrite IH. split.
    + intros [[= <- <-] | [Hle Hn]].
      * split; [lia |]. now rewrite Nat.sub_diag.
      * split; [lia |]. replace (i - s)%nat with (S (i - S s)) by lia. exact Hn.
    + intros [Hle Hn].
      destruct (Nat.eq_dec s i) as [-> | Hne].
      * left. rewrite Nat.sub_diag in Hn. cbn in Hn. now injection Hn as ->.
      * right. split; [lia |].
        replace (i - s)%nat with (S (i - S s)) in Hn by lia. exact Hn.
Qed.

Lemma in_enumerate {A : Type} (l : list A) (i : nat) (a : A) :
  In (i, a) (enumerate l) <-> nth_error l i = Some a.
Proof.
  unfold enumerate. rewrite in_combine_seq, Nat.sub_0_r.
  split; [tauto |]. intro H. split; [lia | exact H].
Qed.

Lemma in_enumerate_lt {A : Type} (l : list A) (i : nat) (a : A) :
  In (i, a) (enumerate l) -> (i < List.length l)%nat.
Proof.
  intro H. apply in_enumerate in H. apply nth_error_Some. congruence.
Qed.

Lemma row_points_nil (m : Np.matrix) (i : nat) (vol : num) (js : list (nat * num)) :
  (forall j x, Np.get m i j = Ok x -> nlt (nabs x) (Fin 0.01) = false) ->
  row_points m i vol js = [].
Proof.
  intro Hnone. unfold row_points.
  induction js as [| [j spot] js IH]; [reflexivity |].
  cbn [flat_map]. rewrite IH, app_nil_r.
  destruct (Np.get m i j) as [x | e] eqn:Hx; [| reflexivity].
  now rewrite (Hnone j x Hx).
Qed.

Lemma scan_row (m : Np.matrix) (i : nat) (vol : num) (js : list (nat * num))
    (bs bv : list num) :
  (forall j spot, In (j, spot) js -> exists x, Np.get m i j = Ok x) ->
  for_each js (fun '(j, spot) st' => breakeven_cell m i vol j spot st') (bs, bv)
  = Ok ((bs ++ map fst (row_points m i vol js))%list,
        (bv ++ map snd (row_points m i vol js))%list).
Proof.
  revert bs bv. induction js as [| [j spot] js IH]; intros bs bv Hget.
  - cbn. now rewrite !app_nil_r.
  - cbn [for_each]. unfold breakeven_cell at 1.
    destruct (Hget j spot (or_introl eq_refl)) as [x Hx].
    unfold row_points. cbn [flat_map]. rewrite Hx. cbn [bind].
    fold (row_points m i vol js).
    assert (Hget' : forall j' spot', In (j', spot') js -> exists x', Np.get m i j' = Ok x').
    { intros j' spot' Hin. apply (Hget j' spot'). now right. }
    destruct (nlt (nabs x) (Fin 0.01)); cbn [bind]; rewrite IH by exact Hget'.
    + rewrite !map_app, !app_assoc. reflexivity.
    + reflexivity.
Qed.

Lemma scan_rows (m : Np.matrix) (spots : list num) (ivols : list (nat * num))
    (bs bv : list num) :
  (forall i vol j spot, In (i, vol) ivols -> In (j, spot) (enumerate spots) ->
                        exists x, Np.get m i j = Ok x) ->
  let pts := flat_map (fun '(i, vol) => row_points m i vol (enumerate spots)) ivols in
  for_each ivols
    (fun '(i, vol) st =>
       for_each (enumerate spots)
         (fun '(j, spot) st' => breakeven_cell m i vol j spot st') st)
    (bs, bv)
  = Ok ((bs ++ map fst pts)%list, (bv ++ map snd pts)%list).
Proof.
  revert bs bv. induction ivols as [| [i vol] ivols IH]; intros bs bv Hget pts.
  - cbn. now rewrite !app_nil_r.
  - cbn [for_each]. rewrite scan_row.
    2:{ intros j spot Hin. apply (Hget i vol j spot); [now left | exact Hin]. }
    cbn [bind]. rewrite IH.
    2:{ intros i' vol' j spot Hi Hj. apply (Hget i' vol' j spot); [now right | exact Hj]. }
    subst pts. cbn [flat_map]. rewrite !map_app, !app_assoc. reflexivity.
Qed.

Lemma combine_fst_snd {A B : Type} (l : list (A * B)) :
  combine (map fst l) (map snd l) = l.
Proof.
  induction l as [| [a b] l IH]; [reflexivity |]. cbn. now rewrite IH.
Qed.

(** On a matrix that has a cell for every pair of indices the scan does
    not raise, and returns the points in row-major order. *)
Lemma breakeven_scan_total (m : Np.matrix) (vols spots : list num) :
  shaped m (List.length vols) (List.length spots) ->
  breakeven_scan m vols spots
  = Ok (map fst (matrix_points m vols spots), map snd (matrix_points m vols spots)).
Proof.
  intro Hshape.
  unfold breakeven_scan. rewrite scan_rows; [reflexivity |].
  intros i vol j spot Hi Hj.
  apply (shaped_get m _ _ i j Hshape); eapply in_enumerate_lt; eassumption.
Qed.

(** C5, amended.  The scan of the P&L matrix collects exactly the grid
    points with |pnl[i,j]| < 0.01, a fixed absolute tolerance, in row-major
    order, as two lists of equal length: the spot of each point and its
    volatility multiplied by 100 (the unit of the chart's axis).  Both
    lists are empty when no cell is within the tolerance. *)
Theorem breakeven_extraction (m : Np.matrix) (vols spots : list num) :
  shaped m (List.length vols) (List.length spots) ->
  exists breakeven_spots breakeven_vols : list num,
    breakeven_scan m vols spots = Ok (breakeven_spots, breakeven_vols)
    /\ List.length breakeven_spots = List.length breakeven_vols
    /\ combine breakeven_spots breakeven_vols = matrix_points m vols spots
    /\ (forall s v : num,
          In (s, v) (combine breakeven_spots breakeven_vols)
          <-> exists (i j : nat) (vol spot x : num),
                nth_error vols i = Some vol /\ nth_error spots j = Some spot
                /\ Np.get m i j = Ok x /\ nlt (nabs x) (Fin 0.01) = true
                /\ s = spot /\ v = (vol * Fin 100)%num)
    /\ ((forall (i j : nat) (x : num),
           Np.get m i j = Ok x -> nlt (nabs x) (Fin 0.01) = false) ->
        breakeven_spots = [] /\ breakeven_vols = []).
Proof.
  intro Hshape.
  exists (map fst (matrix_points m vols spots)), (map snd (matrix_points m vols spots)).
  split; [apply breakeven_scan_total; exact Hshape |].
  split; [now rewrite !length_map |].
  rewrite combine_fst_snd.
  split; [reflexivity |].
  split.
  - intros s v. unfold matrix_points. rewrite in_flat_map. split.
    + intros ([i vol] & Hi & Hin). unfold row_points in Hin.
      rewrite in_flat_map in Hin. destruct Hin as ([j spot] & Hj & Hin).
      apply in_enumerate in Hi, Hj.
      destruct (Np.get m i j) as [x | e] eqn:Hx; [| contradiction].
      destruct (nlt (nabs x) (Fin 0.01)) eqn:Hnear; [| contradiction].
      destruct Hin as [[= <- <-] | []].
      exists i, j, vol, spot, x. repeat split; assumption.
    + intros (i & j & vol & spot & x & Hi & Hj & Hx & Hnear & -> & ->).
      exists (i, vol). split; [now apply in_enumerate |].
      unfold row_points. rewrite in_flat_map.
      exists (j, spot). split; [now apply in_enumerate |].
      rewrite Hx, Hnear. now left.
  - intro Hnone.
    assert (E : matrix_points m vols spots = []).
    { unfold matrix_points.
      induction (enumerate vols) as [| [i vol] l IHl]; [reflexivity |].
      cbn [flat_map]. rewrite IHl, app_nil_r.
      apply row_points_nil. intros j x. apply Hnone. }
    rewrite E. split; reflexivity.
Qed.

Lemma near_breakeven_fin (x : R) : nlt (nabs (Fin x)) (Fin 0.01) = true <-> Rabs x < 0.01.
Proof. cbn [nabs]. apply nlt_fin. Qed.

(** C5, as stated, fails: the second coordinate of a collected point is
    not the volatility of the grid but one hundred times it.  For the
    one-cell grid at spot 100 and volatility 0.2 whose P&L is 0 the scan
    returns (100, 20), not (100, 0.2). *)
Lemma breakeven_volatility_in_percent :
  exists breakeven_spots breakeven_vols : list num,
    breakeven_scan [[Fin 0]] [Fin 0.2] [Fin 100] = Ok (breakeven_spots, breakeven_vols)
    /\ combine breakeven_spots breakeven_vols = [(Fin 100, Fin 20)]
    /\ combine breakeven_spots breakeven_vols <> [(Fin 100, Fin 0.2)].
Proof.
  exists [Fin 100], [Fin 20]. split; [| split].
  - unfold breakeven_scan. cbn.
    destruct (Rlt_dec (Rabs 0) 0.01) as [_ | N].
    + cbn. replace (0.2 * 100) with 20 by lra. reflexivity.
    + exfalso. apply N. rewrite Rabs_R0. lra.
  - reflexivity.
  - cbn. intros [= H]. lra.
Qed.

Lemma breakeven_extraction_witness :
  exists breakeven_spots breakeven_vols : list num,
    breakeven_scan [[Fin 5; Fin 0]; [Fin 0.005; Fin (-3)]] [Fin 0.2; Fin 0.3]
                   [Fin 90; Fin 100]
      = Ok (breakeven_spots, breakeven_vols)
    /\ List.length breakeven_spots = List.length breakeven_vols
    /\ In (Fin 100, (Fin 0.2 * Fin 100)%num) (combine breakeven_spots breakeven_vols).
Proof.
  destruct (breakeven_extraction [[Fin 5; Fin 0]; [Fin 0.005; Fin (-3)]]
              [Fin 0.2; Fin 0.3] [Fin 90; Fin 100])
    as (bs & bv & Hscan & Hlen & _ & Hin & _).
  - split; [reflexivity | repeat constructor].
  - exists bs, bv. split; [exact Hscan |]. split; [exact Hlen |].
    apply Hin. exists 0%nat, 1%nat, (Fin 0.2), (Fin 100), (Fin 0).
    repeat split. apply near_breakeven_fin. rewrite Rabs_R0. lra.
Defined.

(** ** Summary statistics *)

Lemma maximum_fin (a b : R) : Np.maximum (Fin a) (Fin b) = Fin (Rmax a b).
Proof.
  unfold Np.maximum, nlt, Rmax.
  destruct (Rlt_dec a b), (Rle_dec a b); try reflexivity; f_equal; lra.
Qed.

Lemma minimum_fin (a b : R) : Np.minimum (Fin a) (Fin b) = Fin (Rmin a b).
Proof.
  unfold Np.minimum, nlt, Rmin.
  destruct (Rlt_dec b a), (Rle_dec a b); try reflexivity; f_equal; lra.
Qed.

Lemma fold_maximum_fin (xs : list R) (x : R) :
  fold_left Np.maximum (map Fin xs) (Fin x) = Fin (fold_left Rmax xs x).
Proof.
  revert x. induction xs as [| y xs IH]; intro x; [reflexivity |].
  cbn [map fold_left]. now rewrite maximum_fin, IH.
Qed.

Lemma fold_minimum_fin (xs : list R) (x : R) :
  fold_left Np.minimum (map Fin xs) (Fin x) = Fin (fold_left Rmin xs x).
Proof.
  revert x. induction xs as [| y xs IH]; intro x; [reflexivity |].
  cbn [map fold_left]. now rewrite minimum_fin, IH.
Qed.

Lemma fold_Rmax_spec (xs : list R) (x : R) :
  Stats.is_maximum (fold_left Rmax xs x) (x :: xs).
Proof.
  revert x. induction xs as [| y xs IH]; intro x.
  - split; [now left |]. intros z [-> | []]. cbn. lra.
  - cbn [fold_left]. destruct (IH (Rmax x y)) as [Hin Hub]. split.
    + destruct Hin as [Hin | Hin]; [| now right; right].
      rewrite <- Hin. unfold Rmax. destruct (Rle_dec x y); [right; now left | now left].
    + intros z Hz.
      assert (Hm : Rmax x y <= fold_left Rmax xs (Rmax x y)) by (apply Hub; now left).
      destruct Hz as [<- | [<- | Hz]].
      * generalize (Rmax_l x y). lra.
      * generalize (Rmax_r x y). lra.
      * apply Hub. now right.
Qed.

Lemma fold_Rmin_spec (xs : list R) (x : R) :
  Stats.is_minimum (fold_left Rmin xs x) (x :: xs).
Proof.
  revert x. induction xs as [| y xs IH]; intro x.
  - split; [now left |]. intros z [-> | []]. cbn. lra.
  - cbn [fold_left]. destruct (IH (Rmin x y)) as [Hin Hlb]. split.
    + destruct Hin as [Hin | Hin]; [| now right; right].
      rewrite <- Hin. unfold Rmin. destruct (Rle_dec x y); [now left | right; now left].
    + intros z Hz.
      assert (Hm : fold_left Rmin xs (Rmin x y) <= Rmin x y) by (apply Hlb; now left).
      destruct Hz as [<- | [<- | Hz]].
      * generalize (Rmin_l x y). lra.
      * generalize (Rmin_r x y). lra.
      * apply Hlb. now right.
Qed.

Lemma sum_fin (xs : list R) : Np.sum (map Fin xs) = Fin (Stats.total xs).
Proof.
  induction xs as [| x xs IH]; [reflexivity |].
  unfold Np.sum in *. cbn [map fold_right]. rewrite IH. reflexivity.
Qed.

Lemma count_positive_fin (xs : list R) :
  List.length (filter (fun x => ngt x (Fin 0)) (map Fin xs)) = Stats.count_positive xs.
Proof.
  unfold Stats.count_positive.
  induction xs as [| x xs IH]; [reflexivity |].
  cbn [map filter]. unfold ngt at 1, nlt, Stats.positive at 1.
  destruct (Rlt_dec 0 x); cbn [List.length]; now rewrite IH.
Qed.

Lemma total_squares_nonneg (c : R) (xs : list R) :
  0 <= Stats.total (map (fun x => (x - c) * (x - c)) xs).
Proof.
  unfold Stats.total.
  induction xs as [| x xs IH]; cbn [map fold_right]; [lra |].
  generalize (Rle_0_sqr (x - c)). unfold Rsqr. lra.
Qed.

Lemma variance_nonneg (xs : list R) : 0 <= Stats.variance xs.
Proof.
  unfold Stats.variance.
  destruct xs as [| x xs].
  - cbn. lra.
  - apply Rmult_le_pos; [apply total_squares_nonneg |].
    left. apply Rinv_0_lt_compat, lt_0_INR. cbn. lia.
Qed.

(** The summary of a non-empty matrix of finite values. *)
Lemma summary_of_fin (m : Np.matrix) (x : R) (xs : list R) :
  Np.flat m = map Fin (x :: xs) ->
  summary_of m
  = Ok (mk_summary
          (Fin (fold_left Rmax xs x))
          (Fin (fold_left Rmin xs x))
          (Fin (INR (Stats.count_positive (x :: xs)) / INR (List.length (x :: xs)) * 100))
          (Fin (Stats.std (x :: xs)))
          (Fin (Stats.mean (x :: xs)))
          (if Rlt_dec 0 (Stats.std (x :: xs))
           then Fin (Stats.mean (x :: xs) / Stats.std (x :: xs))
           else Fin 0)).
Proof.
  intro Hflat.
  assert (Hn : INR (List.length (x :: xs)) <> 0) by (apply not_0_INR; discriminate).
  assert (Hsize : Np.size m = List.length (x :: xs)).
  { unfold Np.size. now rewrite Hflat, length_map. }
  assert (Hmean : Np.mean m = Fin (Stats.mean (x :: xs))).
  { unfold Np.mean. rewrite Hsize, Hflat, sum_fin. unfold of_nat.
    now rewrite ndiv_fin by exact Hn. }
  assert (Hstd : Np.std m = Fin (Stats.std (x :: xs))).
  { unfold Np.std. rewrite Hsize, Hflat, sum_fin. unfold of_nat.
    rewrite ndiv_fin by exact Hn. fold (Stats.mean (x :: xs)).
    rewrite !map_map. cbn [nsub nmul].
    rewrite <- (map_map (fun v => (v - Stats.mean (x :: xs)) * (v - Stats.mean (x :: xs))) Fin).
    rewrite sum_fin, ndiv_fin by exact Hn.
    fold (Stats.variance (x :: xs)).
    rewrite nsqrt_fin by apply variance_nonneg. reflexivity. }
  unfold summary_of, Np.max, Np.min, Np.count_positive.
  rewrite Hmean, Hstd, Hsize, Hflat. cbn [map bind].
  rewrite fold_maximum_fin, fold_minimum_fin.
  change (Fin x :: map Fin xs) with (map Fin (x :: xs)). rewrite count_positive_fin.
  unfold of_nat. rewrite ndiv_fin by exact Hn. cbn [nmul].
  unfold ngt, nlt.
  destruct (Rlt_dec 0 (Stats.std (x :: xs))) as [Hpos | Hnpos]; [| reflexivity].
  rewrite ndiv_fin by lra. reflexivity.
Qed.

(** C6. Over a non-empty matrix of finite values: maxProfit is the maximum
    element, maxLoss the minimum element, profitProbability the number of
    elements strictly greater than zero divided by the number of elements,
    times 100, and mean and standard deviation are the population mean and
    standard deviation of all elements. *)
Theorem summary_statistics (m : Np.matrix) (xs : list R) :
  Np.flat m = map Fin xs -> xs <> [] ->
  exists (s : summary) (mx mn : R),
    summary_of m = Ok s
    /\ max_profit s = Fin mx /\ Stats.is_maximum mx xs
    /\ max_loss s = Fin mn /\ Stats.is_minimum mn xs
    /\ profit_prob s
       = Fin (INR (Stats.count_positive xs) / INR (List.length xs) * 100)
    /\ pnl_mean s = Fin (Stats.total xs / INR (List.length xs))
    /\ pnl_std s
       = Fin (sqrt (Stats.total (map (fun x => (x - Stats.mean xs) * (x - Stats.mean xs)) xs)
                    / INR (List.length xs))).
Proof.
  intros Hflat Hne. destruct xs as [| x xs]; [contradiction |].
  eexists. exists (fold_left Rmax xs x), (fold_left Rmin xs x).
  split; [apply summary_of_fin; exact Hflat |].
  cbn [max_profit max_loss profit_prob pnl_mean pnl_std].
  split; [reflexivity |]. split; [apply fold_Rmax_spec |].
  split; [reflexivity |]. split; [apply fold_Rmin_spec |].
  repeat split.
Qed.

Lemma summary_statistics_witness :
  exists (s : summary) (mx mn : R),
    summary_of [[Fin 1; Fin (-2)]; [Fin 3; Fin 0]] = Ok s
    /\ max_profit s = Fin mx /\ Stats.is_maximum mx [1; -2; 3; 0]
    /\ max_loss s = Fin mn /\ Stats.is_minimum mn [1; -2; 3; 0]
    /\ profit_prob s = Fin (INR (Stats.count_positive [1; -2; 3; 0]) / INR 4 * 100).
Proof.
  destruct (summary_statistics [[Fin 1; Fin (-2)]; [Fin 3; Fin 0]] [1; -2; 3; 0])
    as (s & mx & mn & Hs & Hmx & Hmax & Hmn & Hmin & Hp & _).
  - reflexivity.
  - discriminate.
  - exists s, mx, mn. repeat split; try assumption; try apply Hmax; apply Hmin.
Defined.



(** The risk metrics of three cells 0.1 on binary64 numbers. *)
Module Binary64Facts.

Import PrimFloat.


End Binary64Facts.



(** ** One run of the script *)

Lemma length_linspace (a b : num) (n : nat) : List.length (Np.linspace a b n) = n.
Proof.
  unfold Np.linspace.
  set (y := map (fun v => (v + a)%num) _).
  assert (Hy : List.length y = n).
  { unfold y. rewrite length_map.
    destruct (0 <? n - 1)%nat; [destruct (Np.is_zero _) |];
      now rewrite !length_map, length_seq. }
  destruct (Nat.ltb_spec 1 n) as [Hn | Hn]; [| exact Hy].
  rewrite length_app, removelast_firstn_len, length_firstn, Hy. cbn. lia.
Qed.

Lemma shaped_map_map {A B : Type} (f : A -> B -> num) (rows : list A) (cols : list B) :
  shaped (map (fun a => map (fun b => f a b) cols) rows)
         (List.length rows) (List.length cols).
Proof.
  split; [apply length_map |].
  apply Forall_forall. intros row Hrow.
  apply in_map_iff in Hrow. destruct Hrow as (a & <- & _). apply length_map.
Qed.

Lemma flat_nonempty {A B : Type} (f : A -> B -> num) (rows : list A) (cols : list B) :
  rows <> [] -> cols <> [] ->
  Np.flat (map (fun a => map (fun b => f a b) cols) rows) <> [].
Proof.
  intros Hr Hc. destruct rows as [| a rows]; [contradiction |].
  destruct cols as [| b cols]; [contradiction |]. discriminate.
Qed.

Lemma summary_of_total (m : Np.matrix) :
  Np.flat m <> [] -> exists s, summary_of m = Ok s.
Proof.
  intro H. unfold summary_of, Np.max, Np.min.
  destruct (Np.flat m) as [| x xs] eqn:E; [contradiction |].
  cbn [bind]. eexists. reflexivity.
Qed.

Lemma nonempty_length {A : Type} (l : list A) : (1 <= List.length l)%nat -> l <> [].
Proof. destruct l; cbn; [lia | discriminate]. Qed.

(** The outputs of a run.  With K <> 0 and at least one sample per axis
    nothing raises. *)
Lemma run_total (S T r sigma : num) (K : R) (option_type : string)
    (spot_range vol_range : Z * Z) (grid_size : nat)
    (position heatmap_type : string) (show_breakeven : bool) :
  K <> 0 -> (1 <= grid_size)%nat ->
  let spots := spot_prices S spot_range grid_size in
  let vols := volatilities sigma vol_range grid_size in
  exists (p : num) (g : greeks) (s : summary),
    let price :=
      map (fun vol => map (fun spot =>
             scenario_price option_type (Fin K) T r vol spot) spots) vols in
    let pnl :=
      map (fun vol => map (fun spot =>
             pnl_of position (scenario_price option_type (Fin K) T r vol spot) p)
             spots) vols in
    option_price_of py_float option_type S (Fin K) T r sigma = Ok p
    /\ summary_of pnl = Ok s
    /\ shaped pnl (List.length vols) (List.length spots)
    /\ run S (Fin K) T r sigma option_type spot_range vol_range grid_size
           position heatmap_type show_breakeven
       = Ok (mk_outputs p g spots vols price pnl
               (z_data_of heatmap_type pnl price p)
               (if show_breakeven && is_pnl_heatmap heatmap_type
                then Some (map fst (matrix_points pnl vols spots),
                           map snd (matrix_points pnl vols spots))
                else None)
               s).
Proof.
  intros HK HN spots vols.
  unfold run.
  assert (Hdiv : truediv py_float S (Fin K) = Ok (S / Fin K)%num).
  { unfold truediv. destruct (Req_dec_T K 0); [contradiction | reflexivity]. }
  assert (Hprice : exists p, option_price_of py_float option_type S (Fin K) T r sigma = Ok p).
  { unfold option_price_of, black_scholes_call, black_scholes_put. rewrite Hdiv.
    destruct (option_type =? "call"); eexists; reflexivity. }
  destruct Hprice as [p Hp]. rewrite Hp. cbn [bind].
  unfold calculate_greeks. rewrite Hdiv. cbn [bind].
  rewrite grid_cells_total. cbn [bind].
  rewrite price_matrix_of_map, pnl_matrix_of_map.
  fold spots. fold vols.
  set (pnl := map (fun vol => map (fun spot => pnl_of position _ p) spots) vols).
  assert (Hspots : List.length spots = grid_size) by apply length_linspace.
  assert (Hvols : List.length vols = grid_size) by apply length_linspace.
  assert (Hshape : shaped pnl (List.length vols) (List.length spots))
    by apply shaped_map_map.
  destruct (summary_of_total pnl) as [s Hs].
  { apply flat_nonempty; apply nonempty_length; lia. }
  unfold breakeven_of.
  rewrite (breakeven_scan_total pnl vols spots Hshape).
  exists p. eexists. exists s.
  split; [reflexivity |]. split; [exact Hs |]. split; [exact Hshape |].
  destruct (show_breakeven && is_pnl_heatmap heatmap_type);
    cbn [bind]; rewrite Hs; reflexivity.
Qed.

(** C8, amended.  The metric selects only the matrix that is drawn: the
    P&L matrix for "P&L", the price matrix for "Option Price", the P&L
    matrix divided by the anchor price, times 100, for "% P&L".  The
    summary is always computed from the P&L matrix, and so is the scan
    for breakeven points, which runs only for the two P&L metrics (and
    when the breakeven toggle is set). *)
Theorem run_uses_pnl_matrix (S T r sigma : num) (K : R) (option_type : string)
    (spot_range vol_range : Z * Z) (grid_size : nat)
    (position heatmap_type : string) (show_breakeven : bool) :
  K <> 0 -> (1 <= grid_size)%nat ->
  exists out : outputs,
    run S (Fin K) T r sigma option_type spot_range vol_range grid_size
        position heatmap_type show_breakeven = Ok out
    /\ (heatmap_type = "P&L" -> z_data out = pnl_matrix out)
    /\ (heatmap_type = "Option Price" -> z_data out = price_matrix out)
    /\ (heatmap_type = "% P&L" ->
        z_data out = Np.scale_pct (pnl_matrix out) (option_price out))
    /\ summary_of (pnl_matrix out) = Ok (stats out)
    /\ (show_breakeven = true ->
        heatmap_type = "P&L" \/ heatmap_type = "% P&L" ->
        exists pts, breakeven_scan (pnl_matrix out) (axis_vols out) (axis_spots out) = Ok pts
                    /\ breakeven out = Some pts)
    /\ (show_breakeven = false \/ heatmap_type = "Option Price" ->
        breakeven out = None).
Proof.
  intros HK HN.
  destruct (run_total S T r sigma K option_type spot_range vol_range grid_size
              position heatmap_type show_breakeven HK HN)
    as (p & g & s & Hp & Hs & Hshape & Hrun).
  eexists. split; [exact Hrun |].
  cbn [z_data pnl_matrix price_matrix option_price stats breakeven axis_vols axis_spots].
  unfold z_data_of.
  split; [intros ->; reflexivity |].
  split; [intros ->; reflexivity |].
  split; [intros ->; reflexivity |].
  split; [exact Hs |].
  split.
  - intros -> Hty. eexists. split; [apply breakeven_scan_total; exact Hshape |].
    destruct Hty as [-> | ->]; reflexivity.
  - intros [-> | ->]; [reflexivity |]. now rewrite andb_comm.
Qed.

Lemma run_uses_pnl_matrix_witness :
  exists out : outputs,
    run (Fin 100) (Fin 100) (Fin 0.25) (Fin 0.05) (Fin 0.2) "call"
        (-40, 40)%Z (-30, 50)%Z 30 "Long" "% P&L" true = Ok out
    /\ z_data out = Np.scale_pct (pnl_matrix out) (option_price out)
    /\ summary_of (pnl_matrix out) = Ok (stats out)
    /\ exists pts, breakeven_scan (pnl_matrix out) (axis_vols out) (axis_spots out) = Ok pts
                   /\ breakeven out = Some pts.
Proof.
  destruct (run_uses_pnl_matrix (Fin 100) (Fin 0.25) (Fin 0.05) (Fin 0.2) 100 "call"
              (-40, 40)%Z (-30, 50)%Z 30 "Long" "% P&L" true)
    as (out & Hrun & _ & _ & Hz & Hs & Hb & _).
  - lra.
  - lia.
  - exists out. split; [exact Hrun |]. split; [apply Hz; reflexivity |].
    split; [exact Hs |]. apply Hb; [reflexivity | now right].
Defined.

(** ** The grid on valid inputs *)

Lemma scenario_price_fin (option_type : string) (K T r v s : R) :
  0 < K -> 0 < T -> 0 < v -> 0 < s ->
  scenario_price option_type (Fin K) (Fin T) (Fin r) (Fin v) (Fin s)
  = Fin (Spec.price option_type s K T r v).
Proof.
  intros HK HT Hv Hs.
  destruct (pricing_finite np_float64 s K T r v) as [Hc Hp]; try lra.
  { apply Rdiv_lt_0_compat; assumption. }
  unfold scenario_price, option_price_of, Spec.price.
  destruct (option_type =? "call"); [rewrite Hc | rewrite Hp]; reflexivity.
Qed.

Lemma map_map_fin {A : Type} (f : num -> num -> A) (rows cols : list R) :
  map (fun a => map (fun b => f a b) (map Fin cols)) (map Fin rows)
  = map (fun a => map (fun b => f (Fin a) (Fin b)) cols) rows.
Proof.
  rewrite map_map. apply map_ext. intro a. now rewrite map_map.
Qed.

Lemma flat_map_map_fin {A B : Type} (f : A -> B -> R) (rows : list A) (cols : list B) :
  Np.flat (map (fun a => map (fun b => Fin (f a b)) cols) rows)
  = map Fin (List.concat (map (fun a => map (fun b => f a b) cols) rows)).
Proof.
  unfold Np.flat. rewrite concat_map, map_map. f_equal.
  apply map_ext. intro a. now rewrite map_map.
Qed.

(** On positive axes, with K > 0 and T > 0, every cell of the grid is
    finite: the price is the closed form and the P&L of a long position is
    the price minus the anchor. *)
Lemma grid_finite (option_type : string) (K T r c : R) (vols spots : list R) :
  0 < K -> 0 < T ->
  (forall v, In v vols -> 0 < v) -> (forall s, In s spots -> 0 < s) ->
  let prices := List.concat (map (fun v => map (fun s => Spec.price option_type s K T r v) spots) vols) in
  Np.flat (map (fun vol => map (fun spot =>
             scenario_price option_type (Fin K) (Fin T) (Fin r) vol spot)
             (map Fin spots)) (map Fin vols))
  = map Fin prices
  /\ Np.flat (map (fun vol => map (fun spot =>
             pnl_of "Long" (scenario_price option_type (Fin K) (Fin T) (Fin r) vol spot) (Fin c))
             (map Fin spots)) (map Fin vols))
  = map Fin (map (fun p => p - c) prices).
Proof.
  intros HK HT Hv Hs prices.
  rewrite !map_map_fin.
  assert (E1 : map (fun a => map (fun b =>
                 scenario_price option_type (Fin K) (Fin T) (Fin r) (Fin a) (Fin b)) spots) vols
               = map (fun a => map (fun b => Fin (Spec.price option_type b K T r a)) spots) vols).
  { apply map_ext_in. intros v Hin. apply map_ext_in. intros s Hin'.
    apply scenario_price_fin; auto. }
  assert (E2 : map (fun a => map (fun b =>
                 pnl_of "Long" (scenario_price option_type (Fin K) (Fin T) (Fin r) (Fin a) (Fin b))
                        (Fin c)) spots) vols
               = map (fun a => map (fun b => Fin (Spec.price option_type b K T r a - c)) spots) vols).
  { apply map_ext_in. intros v Hin. apply map_ext_in. intros s Hin'.
    rewrite scenario_price_fin by auto. reflexivity. }
  rewrite E1, E2, !flat_map_map_fin. split; [reflexivity |].
  f_equal. unfold prices. rewrite concat_map, map_map. f_equal.
  apply map_ext. intro v. now rewrite map_map.
Qed.

(** The samples of an axis that starts above zero and does not descend are
    positive. *)
Lemma samples_positive (lower upper : R) (n : nat) (x : R) :
  0 < lower -> lower <= upper ->
  In x (map (fun i => lower + INR i * ((upper - lower) / INR (n - 1))) (seq 0 n)) ->
  0 < x.
Proof.
  intros Hl Hle Hin. apply in_map_iff in Hin. destruct Hin as (i & <- & Hi).
  apply in_seq in Hi.
  destruct (Nat.eq_dec i 0) as [-> | Hi0].
  - cbn. lra.
  - assert (0 <= (upper - lower) / INR (n - 1)).
    { apply Rmult_le_pos; [lra |]. left. apply Rinv_0_lt_compat, lt_0_INR. lia. }
    generalize (pos_INR i). nra.
Qed.

Lemma map_fin_map {A : Type} (f : A -> R) (l : list A) :
  map (fun a => Fin (f a)) l = map Fin (map f l).
Proof. now rewrite map_map. Qed.

(** A call whose strike is not above the spot is worth something when
    the rate covers half the variance. *)
Lemma call_price_positive (S K T r sigma : R) :
  0 < K -> K <= S -> 0 < T -> 0 < sigma -> sigma * sigma / 2 <= r ->
  0 < Spec.call S K T r sigma.
Proof.
  intros HK HS HT Hs Hr.
  assert (Hq : 0 < sqrt T) by (apply sqrt_lt_R0; exact HT).
  assert (Hqq : sqrt T * sqrt T = T) by (apply sqrt_sqrt; lra).
  assert (Hln : 0 <= ln (S / K)).
  { rewrite <- ln_1. destruct (Req_dec (S / K) 1) as [-> | Hne]; [lra |].
    left. apply ln_increasing; [lra |].
    assert (1 <= S / K); [| lra].
    apply Rmult_le_reg_r with K; [exact HK |]. unfold Rdiv.
    rewrite Rmult_assoc, Rinv_l by lra. lra. }
  assert (Hd2 : 0 <= Spec.d2 S K T r sigma).
  { unfold Spec.d2, Spec.d1.
    replace ((ln (S / K) + (r + 0.5 * sigma ^ 2) * T) / (sigma * sqrt T) - sigma * sqrt T)
      with ((ln (S / K) + (r - sigma * sigma / 2) * T) / (sigma * sqrt T)).
    - apply Rmult_le_pos; [nra |]. left. apply Rinv_0_lt_compat. nra.
    - field_simplify_eq; [| nra].
      replace (sqrt T ^ 2) with T by (cbn [pow]; rewrite Rmult_1_r; now rewrite Hqq).
      lra. }
  assert (Hd12 : Spec.d2 S K T r sigma < Spec.d1 S K T r sigma).
  { unfold Spec.d2. nra. }
  assert (Hcdf2 : 1 / 2 <= Normal.cdf (Spec.d2 S K T r sigma)).
  { rewrite (NormalFacts.cdf_nonneg_eq _ Hd2).
    assert (H0 : 0 <= Normal.half_mass _ Hd2).
    { eapply Rle_trans; [| apply NormalFacts.half_mass_lower].
      apply Rmult_le_pos; [exact Hd2 | left; apply NormalFacts.pdf_pos]. }
    revert H0. generalize (Normal.half_mass _ Hd2). intros h H0. lra. }
  assert (Hcdf : Normal.cdf (Spec.d2 S K T r sigma) < Normal.cdf (Spec.d1 S K T r sigma))
    by now apply NormalFacts.cdf_increasing.
  assert (Hexp : exp (- (r * T)) <= 1).
  { rewrite <- exp_0. destruct (Req_dec (r * T) 0) as [-> | Hne].
    - rewrite Ropp_0. lra.
    - left. apply exp_increasing. nra. }
  assert (Hexp0 : 0 < exp (- (r * T))) by apply exp_pos.
  unfold Spec.call.
  set (a := Normal.cdf (Spec.d1 S K T r sigma)) in *.
  set (b := Normal.cdf (Spec.d2 S K T r sigma)) in *.
  set (e := exp (- (r * T))) in *.
  assert (H1 : K * e <= S) by nra.
  assert (H2 : K * e * b <= S * b) by (apply Rmult_le_compat_r; lra).
  assert (H3 : S * b < S * a) by (apply Rmult_lt_compat_l; lra).
  lra.
Qed.

Lemma shifted_maximum_differs (c x : R) (xs : list R) :
  0 < c -> fold_left Rmax xs x <> fold_left Rmax (map (fun p => p - c) xs) (x - c).
Proof.
  intros Hc E.
  destruct (fold_Rmax_spec xs x) as [_ Hub].
  destruct (fold_Rmax_spec (map (fun p => p - c) xs) (x - c)) as [Hin _].
  rewrite <- E in Hin.
  change ((x - c) :: map (fun p => p - c) xs) with (map (fun p => p - c) (x :: xs)) in Hin.
  apply in_map_iff in Hin. destruct Hin as (y & Hy & Hiny).
  specialize (Hub y Hiny). lra.
Qed.

(** C8, as stated, fails: with the metric "Option Price" the summary is
    still computed from the P&L matrix, not from the price matrix that is
    drawn, and no breakeven point is extracted at all.  The run is the
    default one of the script with 15 samples per axis. *)
Lemma price_metric_summary_reads_pnl :
  exists out : outputs,
    run (Fin 100) (Fin 100) (Fin 0.25) (Fin 0.05) (Fin 0.2) "call"
        (-40, 40)%Z (-30, 50)%Z 15 "Long" "Option Price" true = Ok out
    /\ z_data out = price_matrix out
    /\ summary_of (price_matrix out) <> Ok (stats out)
    /\ breakeven out = None.
Proof.
  assert (HK : 100 <> 0) by lra.
  assert (HN : (1 <= 15)%nat) by lia.
  destruct (run_total (Fin 100) (Fin 0.25) (Fin 0.05) (Fin 0.2) 100 "call"
              (-40, 40)%Z (-30, 50)%Z 15 "Long" "Option Price" true HK HN)
    as (p & g & s & Hp & Hs & _ & Hrun).
  eexists. split; [exact Hrun |].
  cbn [z_data price_matrix stats breakeven].
  split; [reflexivity |]. split; [| reflexivity].
  (* the anchor price is a positive number *)
  destruct (pricing_finite py_float 100 100 0.25 0.05 0.2) as [Hc _]; try lra.
  unfold option_price_of in Hp. cbn [String.eqb Ascii.eqb Bool.eqb] in Hp.
  rewrite Hc in Hp. injection Hp as <-.
  assert (Hpos : 0 < Spec.call 100 100 0.25 0.05 0.2)
    by (apply call_price_positive; lra).
  set (c := Spec.call 100 100 0.25 0.05 0.2) in *.
  (* every cell of the grid is finite *)
  pose proof (spot_prices_fin 100 (-40) 40 15) as Hspots.
  pose proof (volatilities_fin 0.2 (-30) 50 15) as Hvols.
  cbv zeta in Hspots, Hvols.
  rewrite map_fin_map in Hspots, Hvols.
  match type of Hspots with _ = map Fin ?l => set (spots := l) in * end.
  match type of Hvols with _ = map Fin ?l => set (vols := l) in * end.
  rewrite Hspots, Hvols in Hs |- *.
  destruct (grid_finite "call" 100 0.25 0.05 c vols spots) as [Eprice Epnl]; try lra.
  { intros v Hv. eapply samples_positive; [| | exact Hv].
    - generalize (Rmax_l 0.01 (0.2 * (1 + IZR (-30) / 100))). lra.
    - apply Rmax_lub; lra. }
  { intros x Hx. eapply samples_positive; [| | exact Hx]; lra. }
  cbv zeta in Eprice, Epnl.
  destruct (List.concat _) as [| x xs] eqn:Eprices in Eprice, Epnl.
  { unfold summary_of, Np.max in Hs. rewrite Epnl in Hs. discriminate Hs. }
  rewrite (summary_of_fin _ _ _ Eprice).
  rewrite (summary_of_fin _ _ _ Epnl) in Hs.
  injection Hs as <-. intros [= E _].
  now apply (shifted_maximum_differs c x xs Hpos).
Qed.

(** * Further properties *)

(** ** The Greeks *)

(** The Greeks where every operation is defined. *)
Lemma greeks_finite (ty : float_type) (S K T r sigma : R) (option_type : string) :
  0 < S / K -> K <> 0 -> S <> 0 -> 0 < T -> sigma <> 0 ->
  let d1 := Spec.d1 S K T r sigma in
  let d2 := Spec.d2 S K T r sigma in
  let discount := exp (- (r * T)) in
  calculate_greeks ty (Fin S) (Fin K) (Fin T) (Fin r) (Fin sigma) option_type
  = Ok (mk_greeks
          (if option_type =? "call"
           then Fin (Normal.cdf d1) else Fin (Normal.cdf d1 - 1))
          (Fin (Normal.pdf d1 / (S * sigma * sqrt T)))
          (if option_type =? "call"
           then Fin ((- S * Normal.pdf d1 * sigma / (2 * sqrt T)
                      - r * K * discount * Normal.cdf d2) / 365)
           else Fin ((- S * Normal.pdf d1 * sigma / (2 * sqrt T)
                      + r * K * discount * Normal.cdf (- d2)) / 365))
          (Fin (S * Normal.pdf d1 * sqrt T / 100))
          (if option_type =? "call"
           then Fin (K * T * discount * Normal.cdf d2 / 100)
           else Fin (- K * T * discount * Normal.cdf (- d2) / 100))).
Proof.
  intros HSK HK HS HT Hs d1 d2 discount.
  assert (Hq : sqrt T <> 0) by (apply Rgt_not_eq, sqrt_lt_R0; exact HT).
  assert (Hden : sigma * sqrt T <> 0) by (apply Rmult_integral_contrapositive; tauto).
  assert (Hden2 : S * sigma * sqrt T <> 0).
  { rewrite Rmult_assoc. apply Rmult_integral_contrapositive; tauto. }
  assert (Hden3 : 2 * sqrt T <> 0) by lra.
  assert (Hd1 : (ln (S / K) + (r + 0.5 * (sigma * sigma)) * T) / (sigma * sqrt T) = d1).
  { unfold d1, Spec.d1. simpl pow. now rewrite Rmult_1_r. }
  assert (Hexp : - r * T = - (r * T)) by ring.
  unfold calculate_greeks.
  rewrite truediv_fin by exact HK. cbn [bind].
  rewrite nlog_fin by exact HSK.
  rewrite nsqrt_fin by lra.
  cbn [nsquare nmul nadd nneg].
  rewrite !(ndiv_fin _ (sigma * sqrt T)) by exact Hden.
  cbn [nsub nmul nneg ncdf npdf nexp nadd].
  rewrite !(ndiv_fin _ (S * sigma * sqrt T)) by exact Hden2.
  rewrite !(ndiv_fin _ (2 * sqrt T)) by exact Hden3.
  cbn [nsub nadd].
  rewrite !(ndiv_fin _ 365), !(ndiv_fin _ 100) by lra.
  rewrite Hd1, Hexp. fold d2. fold discount.
  destruct (option_type =? "call"); reflexivity.
Qed.

(** X1. Parity of the Greeks: at the same valid parameters the call delta
    exceeds the put delta by exactly 1, gamma and vega are the same for
    both types, the call theta is below the put theta by
    r K e^(-rT) / 365 and the call rho is above the put rho by
    K T e^(-rT) / 100. *)
Theorem greeks_parity (ty : float_type) (S K T r sigma : R) :
  0 < S -> 0 < K -> 0 < T -> 0 < sigma ->
  exists c p : greeks,
    calculate_greeks ty (Fin S) (Fin K) (Fin T) (Fin r) (Fin sigma) "call" = Ok c
    /\ calculate_greeks ty (Fin S) (Fin K) (Fin T) (Fin r) (Fin sigma) "put" = Ok p
    /\ (delta c - delta p)%num = Fin 1
    /\ gamma c = gamma p
    /\ vega c = vega p
    /\ (theta c - theta p)%num = Fin (- (r * K * exp (- (r * T))) / 365)
    /\ (rho c - rho p)%num = Fin (K * T * exp (- (r * T)) / 100).
Proof.
  intros HS HK HT Hs.
  assert (HSK : 0 < S / K) by (apply Rdiv_lt_0_compat; assumption).
  do 2 eexists.
  split; [apply greeks_finite; lra |].
  split; [apply greeks_finite; lra |].
  cbn [delta gamma vega theta rho String.eqb Ascii.eqb Bool.eqb nsub].
  repeat split; f_equal.
  - lra.
  - rewrite NormalFacts.cdf_opp. lra.
  - rewrite NormalFacts.cdf_opp. lra.
Qed.

Lemma greeks_parity_witness :
  exists c p : greeks,
    calculate_greeks py_float (Fin 100) (Fin 100) (Fin 0.25) (Fin 0.05) (Fin 0.2) "call"
      = Ok c
    /\ calculate_greeks py_float (Fin 100) (Fin 100) (Fin 0.25) (Fin 0.05) (Fin 0.2) "put"
      = Ok p
    /\ (delta c - delta p)%num = Fin 1
    /\ gamma c = gamma p
    /\ vega c = vega p.
Proof.
  destruct (greeks_parity py_float 100 100 0.25 0.05 0.2)
    as (c & p & Hc & Hp & Hd & Hg & Hv & _); try lra.
  exists c, p. repeat split; assumption.
Defined.

(** X2. For valid parameters and whatever the option type, gamma and vega
    are finite and not negative, and they are tied by
    vega * 100 = gamma * S^2 * sigma * T. *)
Theorem gamma_vega_nonnegative (ty : float_type) (S K T r sigma : R)
    (option_type : string) :
  0 < S -> 0 < K -> 0 < T -> 0 < sigma ->
  exists (g : greeks) (gam veg : R),
    calculate_greeks ty (Fin S) (Fin K) (Fin T) (Fin r) (Fin sigma) option_type = Ok g
    /\ gamma g = Fin gam /\ vega g = Fin veg
    /\ 0 <= gam /\ 0 <= veg
    /\ veg * 100 = gam * (S * S) * sigma * T.
Proof.
  intros HS HK HT Hs.
  assert (HSK : 0 < S / K) by (apply Rdiv_lt_0_compat; assumption).
  assert (Hq : 0 < sqrt T) by (apply sqrt_lt_R0; exact HT).
  assert (Hqq : sqrt T * sqrt T = T) by (apply sqrt_sqrt; lra).
  assert (Hpdf := NormalFacts.pdf_pos (Spec.d1 S K T r sigma)).
  eexists. do 2 eexists.
  split; [apply greeks_finite; lra |].
  cbn [gamma vega].
  split; [reflexivity |]. split; [reflexivity |].
  set (f := Normal.pdf (Spec.d1 S K T r sigma)) in *.
  assert (Hden : 0 < S * sigma * sqrt T).
  { apply Rmult_lt_0_compat; [apply Rmult_lt_0_compat |]; assumption. }
  split; [left; apply Rdiv_lt_0_compat; assumption |].
  split.
  - left. apply Rdiv_lt_0_compat; [| lra].
    apply Rmult_lt_0_compat; [apply Rmult_lt_0_compat |]; assumption.
  - replace (f / (S * sigma * sqrt T) * (S * S) * sigma * T)
      with (f / (S * sigma * sqrt T) * (S * S) * sigma * (sqrt T * sqrt T))
      by (now rewrite Hqq).
    field. repeat split; lra.
Qed.

Lemma gamma_vega_nonnegative_witness :
  exists (g : greeks) (gam veg : R),
    calculate_greeks py_float (Fin 100) (Fin 100) (Fin 0.25) (Fin 0.05) (Fin 0.2) "put"
      = Ok g
    /\ gamma g = Fin gam /\ vega g = Fin veg
    /\ 0 <= gam /\ 0 <= veg.
Proof.
  destruct (gamma_vega_nonnegative py_float 100 100 0.25 0.05 0.2 "put")
    as (g & gam & veg & Hg & Hgam & Hveg & H1 & H2 & _); try lra.
  exists g, gam, veg. repeat split; assumption.
Defined.

(** Once [d1] is NaN, every Greek is. *)
Lemma greeks_nan (ty : float_type) (S K T r sigma q : num) (option_type : string) :
  truediv ty S K = Ok q ->
  nlog q = NaN \/ nsqrt T = NaN ->
  calculate_greeks ty S K T r sigma option_type
  = Ok (mk_greeks NaN NaN NaN NaN NaN).
Proof.
  intros Hq H.
  unfold calculate_greeks. rewrite Hq. cbn [bind].
  assert (Hd1 : ((nlog q + (r + Fin 0.5 * nsquare sigma) * T) / (sigma * nsqrt T))%num = NaN).
  { destruct H as [H | H]; rewrite H.
    - now rewrite nadd_nan_l, ndiv_nan_l.
    - now rewrite nmul_nan_r, ndiv_nan_r. }
  rewrite Hd1. cbn [nsub ncdf npdf nneg].
  rewrite !nmul_nan_r, !ndiv_nan_l.
  destruct (option_type =? "call");
    cbn [nsub nmul ndiv nadd ncdf nneg];
    rewrite ?nmul_nan_r, ?nsub_nan_r; reflexivity.
Qed.

(** X3. The Greeks are not guarded either: with K = 0 and a builtin float
    S the call raises ZeroDivisionError; with S/K < 0, or with T < 0,
    all five Greeks are NaN. *)
Theorem greeks_unguarded (ty : float_type) (S K T r sigma : R) (option_type : string) :
  (K = 0 ->
     calculate_greeks py_float (Fin S) (Fin K) (Fin T) (Fin r) (Fin sigma) option_type
     = Raise ZeroDivisionError)
  /\ (K <> 0 -> S / K < 0 \/ T < 0 ->
     calculate_greeks ty (Fin S) (Fin K) (Fin T) (Fin r) (Fin sigma) option_type
     = Ok (mk_greeks NaN NaN NaN NaN NaN)).
Proof.
  split.
  - intros ->. unfold calculate_greeks, truediv.
    destruct (Req_dec_T 0 0) as [_ | N]; [reflexivity | now contradiction N].
  - intros HK H. apply greeks_nan with (q := Fin (S / K)).
    + now apply truediv_fin.
    + destruct H as [H | H]; [left; now apply nlog_negative | right; now apply nsqrt_negative].
Qed.

Lemma greeks_unguarded_witness :
  calculate_greeks py_float (Fin 100) (Fin 0) (Fin 0.25) (Fin 0.05) (Fin 0.2) "call"
    = Raise ZeroDivisionError
  /\ calculate_greeks py_float (Fin 100) (Fin 100) (Fin (-0.25)) (Fin 0.05) (Fin 0.2) "call"
    = Ok (mk_greeks NaN NaN NaN NaN NaN).
Proof.
  split.
  - destruct (greeks_unguarded py_float 100 0 0.25 0.05 0.2 "call") as [H _].
    apply H. reflexivity.
  - destruct (greeks_unguarded py_float 100 100 (-0.25) 0.05 0.2 "call") as [_ H].
    apply H; [lra | right; lra].
Defined.

(** ** Degenerate inputs of the pricing functions *)

Lemma ndiv_zero (x y : R) :
  y = 0 ->
  (Fin x / Fin y)%num
  = if Req_dec_T x 0 then NaN else if Rlt_dec x 0 then NInf else PInf.
Proof.
  intros ->. unfold ndiv, Rnegative, inf_of_sign.
  destruct (Req_dec_T 0 0) as [_ | N]; [| now contradiction N].
  destruct (Req_dec_T x 0); [reflexivity |]. now destruct (Rlt_dec x 0).
Qed.

(** The prices when [sigma * sqrt(T)] is zero: [d1] is the quotient of
    [x = ln(S/K) + (r + sigma^2/2) T] by zero, an infinity with the sign of
    [x], or NaN when [x] is zero too. *)
Lemma pricing_zero_denominator (ty : float_type) (S K T r sigma : R) :
  0 < S / K -> K <> 0 -> 0 <= T -> sigma * sqrt T = 0 ->
  let x := ln (S / K) + (r + 0.5 * (sigma * sigma)) * T in
  (0 < x ->
     black_scholes_call ty (Fin S) (Fin K) (Fin T) (Fin r) (Fin sigma)
       = Ok (Fin (S - K * exp (- (r * T))))
     /\ black_scholes_put ty (Fin S) (Fin K) (Fin T) (Fin r) (Fin sigma)
       = Ok (Fin 0))
  /\ (x < 0 ->
     black_scholes_call ty (Fin S) (Fin K) (Fin T) (Fin r) (Fin sigma)
       = Ok (Fin 0)
     /\ black_scholes_put ty (Fin S) (Fin K) (Fin T) (Fin r) (Fin sigma)
       = Ok (Fin (K * exp (- (r * T)) - S)))
  /\ (x = 0 ->
     black_scholes_call ty (Fin S) (Fin K) (Fin T) (Fin r) (Fin sigma) = Ok NaN
     /\ black_scholes_put ty (Fin S) (Fin K) (Fin T) (Fin r) (Fin sigma) = Ok NaN).
Proof.
  intros HSK HK HT Hden x.
  assert (Hexp : - r * T = - (r * T)) by ring.
  unfold black_scholes_call, black_scholes_put.
  rewrite truediv_fin by exact HK. cbn [bind].
  rewrite nlog_fin by exact HSK.
  rewrite nsqrt_fin by exact HT.
  cbn [nsquare nmul nadd nneg].
  rewrite (ndiv_zero _ _ Hden). fold x. rewrite Hexp.
  split; [| split]; intro Hx;
    destruct (Req_dec_T x 0) as [E | E]; try (exfalso; lra);
    try destruct (Rlt_dec x 0) as [L | L]; try (exfalso; lra);
    cbn; split; do 2 f_equal; lra.
Qed.

(** X4. At expiry (T = 0, with S, K, sigma > 0) the functions return the
    intrinsic value: S - K for a call above the strike and 0 for the put,
    0 for a call below the strike and K - S for the put; exactly at the
    strike both are NaN. *)
Theorem pricing_at_expiry (ty : float_type) (S K r sigma : R) :
  0 < S -> 0 < K -> 0 < sigma ->
  (K < S ->
     black_scholes_call ty (Fin S) (Fin K) (Fin 0) (Fin r) (Fin sigma) = Ok (Fin (S - K))
     /\ black_scholes_put ty (Fin S) (Fin K) (Fin 0) (Fin r) (Fin sigma) = Ok (Fin 0))
  /\ (S < K ->
     black_scholes_call ty (Fin S) (Fin K) (Fin 0) (Fin r) (Fin sigma) = Ok (Fin 0)
     /\ black_scholes_put ty (Fin S) (Fin K) (Fin 0) (Fin r) (Fin sigma) = Ok (Fin (K - S)))
  /\ (S = K ->
     black_scholes_call ty (Fin S) (Fin K) (Fin 0) (Fin r) (Fin sigma) = Ok NaN
     /\ black_scholes_put ty (Fin S) (Fin K) (Fin 0) (Fin r) (Fin sigma) = Ok NaN).
Proof.
  intros HS HK Hs.
  assert (HSK : 0 < S / K) by (apply Rdiv_lt_0_compat; assumption).
  assert (Hden : sigma * sqrt 0 = 0) by (rewrite sqrt_0; ring).
  destruct (pricing_zero_denominator ty S K 0 r sigma HSK) as (Hpos & Hneg & Hzero);
    try lra.
  assert (Hdisc : exp (- (r * 0)) = 1) by (rewrite Rmult_0_r, Ropp_0; apply exp_0).
  rewrite Hdisc in Hpos, Hneg.
  assert (Hx : ln (S / K) + (r + 0.5 * (sigma * sigma)) * 0 = ln (S / K)) by ring.
  rewrite Hx in Hpos, Hneg, Hzero.
  split; [| split]; intro H; split.
  - replace (S - K) with (S - K * 1) by ring. apply Hpos.
    rewrite <- ln_1. apply ln_increasing; [lra |].
    apply Rmult_lt_reg_r with K; [exact HK |]. unfold Rdiv.
    rewrite Rmult_assoc, Rinv_l by lra. lra.
  - apply Hpos.
    rewrite <- ln_1. apply ln_increasing; [lra |].
    apply Rmult_lt_reg_r with K; [exact HK |]. unfold Rdiv.
    rewrite Rmult_assoc, Rinv_l by lra. lra.
  - apply Hneg.
    rewrite <- ln_1. apply ln_increasing; [exact HSK |].
    apply Rmult_lt_reg_r with K; [exact HK |]. unfold Rdiv.
    rewrite Rmult_assoc, Rinv_l by lra. lra.
  - replace (K - S) with (K * 1 - S) by ring. apply Hneg.
    rewrite <- ln_1. apply ln_increasing; [exact HSK |].
    apply Rmult_lt_reg_r with K; [exact HK |]. unfold Rdiv.
    rewrite Rmult_assoc, Rinv_l by lra. lra.
  - apply Hzero. subst S. unfold Rdiv. rewrite Rinv_r by lra. apply ln_1.
  - apply Hzero. subst S. unfold Rdiv. rewrite Rinv_r by lra. apply ln_1.
Qed.

Lemma pricing_at_expiry_witness :
  black_scholes_call py_float (Fin 110) (Fin 100) (Fin 0) (Fin 0.05) (Fin 0.2)
    = Ok (Fin (110 - 100))
  /\ black_scholes_put py_float (Fin 90) (Fin 100) (Fin 0) (Fin 0.05) (Fin 0.2)
    = Ok (Fin (100 - 90))
  /\ black_scholes_call py_float (Fin 100) (Fin 100) (Fin 0) (Fin 0.05) (Fin 0.2)
    = Ok NaN.
Proof.
  split; [| split].
  - destruct (pricing_at_expiry py_float 110 100 0.05 0.2) as (H & _); try lra.
    apply H. lra.
  - destruct (pricing_at_expiry py_float 90 100 0.05 0.2) as (_ & H & _); try lra.
    apply H. lra.
  - destruct (pricing_at_expiry py_float 100 100 0.05 0.2) as (_ & _ & H); try lra.
    apply H. reflexivity.
Defined.

Lemma log_moneyness_sign (S K T r : R) :
  0 < S -> 0 < K ->
  (K * exp (- (r * T)) < S -> 0 < ln (S / K) + r * T)
  /\ (S < K * exp (- (r * T)) -> ln (S / K) + r * T < 0)
  /\ (S = K * exp (- (r * T)) -> ln (S / K) + r * T = 0).
Proof.
  intros HS HK.
  assert (HSK : 0 < S / K) by (apply Rdiv_lt_0_compat; assumption).
  assert (Hexp : 0 < exp (- (r * T))) by apply exp_pos.
  assert (Hln : ln (exp (- (r * T))) = - (r * T)) by apply ln_exp.
  split; [| split]; intro H.
  - assert (ln (exp (- (r * T))) < ln (S / K)); [| lra].
    apply ln_increasing; [exact Hexp |].
    apply Rmult_lt_reg_r with K; [exact HK |]. unfold Rdiv.
    rewrite Rmult_assoc, Rinv_l by lra. lra.
  - assert (ln (S / K) < ln (exp (- (r * T)))); [| lra].
    apply ln_increasing; [exact HSK |].
    apply Rmult_lt_reg_r with K; [exact HK |]. unfold Rdiv.
    rewrite Rmult_assoc, Rinv_l by lra. lra.
  - replace (S / K) with (exp (- (r * T))); [lra |].
    rewrite H. field. lra.
Qed.

(** X5. With zero volatility (sigma = 0, with S, K, T > 0) the call is
    S - K e^(-rT) where the spot is above the discounted strike and 0
    where it is below, the put is 0 and K e^(-rT) - S; where the spot
    equals the discounted strike both are NaN. *)
Theorem pricing_zero_volatility (ty : float_type) (S K T r : R) :
  0 < S -> 0 < K -> 0 < T ->
  (K * exp (- (r * T)) < S ->
     black_scholes_call ty (Fin S) (Fin K) (Fin T) (Fin r) (Fin 0)
       = Ok (Fin (S - K * exp (- (r * T))))
     /\ black_scholes_put ty (Fin S) (Fin K) (Fin T) (Fin r) (Fin 0) = Ok (Fin 0))
  /\ (S < K * exp (- (r * T)) ->
     black_scholes_call ty (Fin S) (Fin K) (Fin T) (Fin r) (Fin 0) = Ok (Fin 0)
     /\ black_scholes_put ty (Fin S) (Fin K) (Fin T) (Fin r) (Fin 0)
       = Ok (Fin (K * exp (- (r * T)) - S)))
  /\ (S = K * exp (- (r * T)) ->
     black_scholes_call ty (Fin S) (Fin K) (Fin T) (Fin r) (Fin 0) = Ok NaN
     /\ black_scholes_put ty (Fin S) (Fin K) (Fin T) (Fin r) (Fin 0) = Ok NaN).
Proof.
  intros HS HK HT.
  assert (HSK : 0 < S / K) by (apply Rdiv_lt_0_compat; assumption).
  destruct (pricing_zero_denominator ty S K T r 0 HSK) as (Hpos & Hneg & Hzero);
    try lra.
  assert (Hx : ln (S / K) + (r + 0.5 * (0 * 0)) * T = ln (S / K) + r * T) by lra.
  rewrite Hx in Hpos, Hneg, Hzero.
  destruct (log_moneyness_sign S K T r HS HK) as (L1 & L2 & L3).
  split; [| split]; intro H; [apply Hpos | apply Hneg | apply Hzero]; auto.
Qed.

Lemma pricing_zero_volatility_witness :
  black_scholes_call py_float (Fin 100) (Fin 100) (Fin 0.25) (Fin 0.05) (Fin 0)
    = Ok (Fin (100 - 100 * exp (- (0.05 * 0.25))))
  /\ black_scholes_put py_float (Fin 100) (Fin 100) (Fin 0.25) (Fin 0.05) (Fin 0)
    = Ok (Fin 0).
Proof.
  destruct (pricing_zero_volatility py_float 100 100 0.25 0.05) as (H & _); try lra.
  apply H.
  assert (exp (- (0.05 * 0.25)) < 1); [| lra].
  rewrite <- exp_0. apply exp_increasing. lra.
Defined.

Lemma nlog_zero (x : R) : x = 0 -> nlog (Fin x) = NInf.
Proof.
  intros ->. unfold nlog.
  destruct (Rlt_dec 0 0) as [L | _]; [lra |].
  destruct (Req_dec_T 0 0) as [_ | N]; [reflexivity | now contradiction N].
Qed.

(** X6. With a zero spot (S = 0, with K, T, sigma > 0) the logarithm is
    -inf, and the call is worth 0 and the put the discounted strike
    K e^(-rT). *)
Theorem pricing_zero_spot (ty : float_type) (K T r sigma : R) :
  0 < K -> 0 < T -> 0 < sigma ->
  black_scholes_call ty (Fin 0) (Fin K) (Fin T) (Fin r) (Fin sigma) = Ok (Fin 0)
  /\ black_scholes_put ty (Fin 0) (Fin K) (Fin T) (Fin r) (Fin sigma)
     = Ok (Fin (K * exp (- (r * T)))).
Proof.
  intros HK HT Hs.
  assert (Hq : 0 < sqrt T) by (apply sqrt_lt_R0; exact HT).
  assert (Hexp : - r * T = - (r * T)) by ring.
  unfold black_scholes_call, black_scholes_put.
  rewrite truediv_fin by lra. cbn [bind].
  rewrite nlog_zero by (unfold Rdiv; ring).
  rewrite nsqrt_fin by lra.
  cbn [nsquare nmul nadd nneg ndiv]. unfold Rnegative.
  destruct (Rlt_dec (sigma * sqrt T) 0) as [L | _]; [exfalso; nra |].
  cbn. rewrite Hexp. split; do 2 f_equal; lra.
Qed.

Lemma pricing_zero_spot_witness :
  black_scholes_call py_float (Fin 0) (Fin 100) (Fin 0.25) (Fin 0.05) (Fin 0.2)
    = Ok (Fin 0)
  /\ black_scholes_put py_float (Fin 0) (Fin 100) (Fin 0.25) (Fin 0.05) (Fin 0.2)
     = Ok (Fin (100 * exp (- (0.05 * 0.25)))).
Proof.
  apply (pricing_zero_spot py_float 100 0.25 0.05 0.2); lra.
Defined.

(** ** The price of a call *)

(** X7. A call whose strike is not above the spot is worth something
    when the rate is at least half the variance: for 0 < K <= S, T > 0,
    sigma > 0 and r >= sigma^2 / 2 the call price is a strictly positive
    number. *)
Theorem call_in_the_money_positive (ty : float_type) (S K T r sigma : R) :
  0 < K -> K <= S -> 0 < T -> 0 < sigma -> sigma * sigma / 2 <= r ->
  exists c : R,
    black_scholes_call ty (Fin S) (Fin K) (Fin T) (Fin r) (Fin sigma) = Ok (Fin c)
    /\ 0 < c.
Proof.
  intros HK HS HT Hs Hr.
  exists (Spec.call S K T r sigma). split.
  - apply pricing_finite; try lra. apply Rdiv_lt_0_compat; lra.
  - now apply call_price_positive.
Qed.

Lemma call_in_the_money_positive_witness :
  exists c : R,
    black_scholes_call py_float (Fin 100) (Fin 100) (Fin 0.25) (Fin 0.05) (Fin 0.2)
      = Ok (Fin c)
    /\ 0 < c.
Proof.
  apply (call_in_the_money_positive py_float 100 100 0.25 0.05 0.2); lra.
Defined.

(** ** The axes and the cells of the grid *)

(** A sample of an axis lies between its two ends. *)
Lemma sample_between (lower upper : R) (n i : nat) :
  (i < n)%nat ->
  Rmin lower upper <= lower + INR i * ((upper - lower) / INR (n - 1)) <= Rmax lower upper.
Proof.
  intro Hi.
  assert (Hmin := Rmin_l lower upper). assert (Hmin' := Rmin_r lower upper).
  assert (Hmax := Rmax_l lower upper). assert (Hmax' := Rmax_r lower upper).
  destruct (Nat.eq_dec i 0) as [-> | Hi0].
  - cbn [INR]. lra.
  - assert (Hn : 0 < INR (n - 1)) by (apply lt_0_INR; lia).
    assert (Hle : INR i <= INR (n - 1)) by (apply le_INR; lia).
    assert (H0 : 0 <= INR i) by apply pos_INR.
    set (t := INR i / INR (n - 1)).
    assert (Ht : 0 <= t <= 1).
    { unfold t. split.
      - apply Rmult_le_pos; [exact H0 | left; now apply Rinv_0_lt_compat].
      - apply Rmult_le_reg_r with (INR (n - 1)); [exact Hn |].
        unfold Rdiv. rewrite Rmult_assoc, Rinv_l by lra. lra. }
    replace (lower + INR i * ((upper - lower) / INR (n - 1)))
      with (lower + t * (upper - lower)) by (unfold t; field; lra).
    destruct (Rle_dec lower upper); nra.
Qed.

(** X8. For S > 0 and lowPct < highPct the spot axis has N samples,
    uniformly spaced from S (1 + lowPct/100) to S (1 + highPct/100) and
    strictly increasing; they are all positive when lowPct > -100. *)
Theorem spot_axis (S : R) (lowPct highPct : Z) (N : nat) :
  0 < S -> (lowPct < highPct)%Z ->
  let lower := S * (1 + IZR lowPct / 100) in
  let upper := S * (1 + IZR highPct / 100) in
  let spots := spot_prices (Fin S) (lowPct, highPct) N in
  spots = map (fun i => Fin (lower + INR i * ((upper - lower) / INR (N - 1)))) (seq 0 N)
  /\ List.length spots = N
  /\ strictly_increasing spots
  /\ ((-100 < lowPct)%Z ->
      forall x, In x spots -> exists v : R, x = Fin v /\ lower <= v <= upper /\ 0 < v).
Proof.
  intros HS Hlt lower upper spots.
  assert (E : spots = map (fun i => Fin (lower + INR i * ((upper - lower) / INR (N - 1))))
                          (seq 0 N)) by apply spot_prices_fin.
  assert (Hlu : lower < upper).
  { unfold lower, upper. apply IZR_lt in Hlt. nra. }
  split; [exact E |]. rewrite E.
  split; [now rewrite length_map, length_seq |].
  split.
  - destruct (Nat.le_gt_cases N 1) as [Hsmall | Hbig].
    + intros i j x y Hij Hi Hj. apply nth_error_map_seq in Hj. lia.
    + apply uniform_increasing. apply Rdiv_lt_0_compat; [lra |].
      apply lt_0_INR. lia.
  - intros Hlo x Hx. apply in_map_iff in Hx. destruct Hx as (i & <- & Hi).
    apply in_seq in Hi. eexists. split; [reflexivity |].
    assert (Hb := sample_between lower upper N i ltac:(lia)).
    rewrite Rmin_left, Rmax_right in Hb by lra.
    split; [exact Hb |].
    assert (0 < lower); [| lra].
    unfold lower. apply IZR_lt in Hlo. nra.
Qed.

Lemma spot_axis_witness :
  List.length (spot_prices (Fin 100) (-40, 40)%Z 30) = 30%nat
  /\ strictly_increasing (spot_prices (Fin 100) (-40, 40)%Z 30)
  /\ forall x, In x (spot_prices (Fin 100) (-40, 40)%Z 30) ->
       exists v : R, x = Fin v
                     /\ 100 * (1 + IZR (-40) / 100) <= v <= 100 * (1 + IZR 40 / 100)
                     /\ 0 < v.
Proof.
  assert (HS : 0 < 100) by lra.
  assert (Hr : (-40 < 40)%Z) by lia.
  destruct (spot_axis 100 (-40) 40 30 HS Hr) as (_ & Hlen & Hinc & Hpos).
  split; [exact Hlen |]. split; [exact Hinc |]. apply Hpos. lia.
Defined.

(** X9. The floor keeps the volatility axis positive: for sigma > 0 and
    highPct > -100 every sample of the axis is a positive number, not
    below the smaller of 0.01 and sigma (1 + highPct/100). *)
Theorem volatility_axis_positive (sigma : R) (lowPct highPct : Z) (N : nat) :
  0 < sigma -> (-100 < highPct)%Z ->
  forall x, In x (volatilities (Fin sigma) (lowPct, highPct) N) ->
    exists v : R, x = Fin v
                  /\ Rmin 0.01 (sigma * (1 + IZR highPct / 100)) <= v
                  /\ 0 < v.
Proof.
  intros Hs Hhi x Hx. rewrite volatilities_fin in Hx.
  apply in_map_iff in Hx. destruct Hx as (i & <- & Hi).
  apply in_seq in Hi. eexists. split; [reflexivity |].
  set (lower := Rmax 0.01 (sigma * (1 + IZR lowPct / 100))) in *.
  set (upper := sigma * (1 + IZR highPct / 100)) in *.
  assert (Hb := sample_between lower upper N i ltac:(lia)).
  assert (Hl : 0.01 <= lower) by apply Rmax_l.
  assert (Hu : 0 < upper).
  { unfold upper. apply IZR_lt in Hhi. nra. }
  assert (Hm : Rmin 0.01 upper <= Rmin lower upper).
  { apply Rmin_glb; [| apply Rmin_r].
    eapply Rle_trans; [apply Rmin_l | exact Hl]. }
  assert (Hp : 0 < Rmin 0.01 upper) by (apply Rmin_glb_lt; lra).
  split; lra.
Qed.

Lemma volatility_axis_positive_witness :
  In (Fin 0.01) (volatilities (Fin 0.001) (-30, 50)%Z 15)
  /\ exists v : R,
       Fin 0.01 = Fin v
       /\ Rmin 0.01 (0.001 * (1 + IZR 50 / 100)) <= v
       /\ 0 < v.
Proof.
  assert (Hin : In (Fin 0.01) (volatilities (Fin 0.001) (-30, 50)%Z 15)).
  { rewrite volatilities_fin. apply in_map_iff. exists 0%nat.
    split; [| apply in_seq; lia].
    f_equal. cbn [INR]. rewrite Rmax_left by lra. lra. }
  split; [exact Hin |].
  apply (volatility_axis_positive 0.001 (-30) 50 15); [lra | lia | exact Hin].
Defined.

(** With a divisor that is not zero the builtin and the numpy division
    agree, and so do the prices. *)
Lemma dispatch_types_agree (option_type : string) (S T r sigma : num) (K : R) :
  K <> 0 ->
  option_price_of py_float option_type S (Fin K) T r sigma
  = option_price_of np_float64 option_type S (Fin K) T r sigma.
Proof.
  intro HK.
  assert (E : truediv py_float S (Fin K) = truediv np_float64 S (Fin K)).
  { unfold truediv. destruct (Req_dec_T K 0); [contradiction | reflexivity]. }
  unfold option_price_of, black_scholes_call, black_scholes_put. now rewrite E.
Qed.

(** ** Runs of the script *)

Lemma shaped_map_cells (f : num -> num) (m : Np.matrix) (rows cols : nat) :
  shaped m rows cols -> shaped (map (map f) m) rows cols.
Proof.
  intros [Hr Hc]. split; [now rewrite length_map |].
  apply Forall_forall. intros row Hrow.
  apply in_map_iff in Hrow. destruct Hrow as (row' & <- & Hin).
  rewrite length_map. rewrite Forall_forall in Hc. now apply Hc.
Qed.

(** X11. A run with K <> 0 and N >= 1 samples per axis returns two axes
    of N samples and three matrices (price, P&L and the one drawn) of N
    rows of N cells, whatever the metric. *)
Theorem run_grid_shape (S T r sigma : num) (K : R) (option_type : string)
    (spot_range vol_range : Z * Z) (grid_size : nat)
    (position heatmap_type : string) (show_breakeven : bool) :
  K <> 0 -> (1 <= grid_size)%nat ->
  exists out : outputs,
    run S (Fin K) T r sigma option_type spot_range vol_range grid_size
        position heatmap_type show_breakeven = Ok out
    /\ List.length (axis_spots out) = grid_size
    /\ List.length (axis_vols out) = grid_size
    /\ shaped (price_matrix out) grid_size grid_size
    /\ shaped (pnl_matrix out) grid_size grid_size
    /\ shaped (z_data out) grid_size grid_size.
Proof.
  intros HK HN.
  destruct (run_total S T r sigma K option_type spot_range vol_range grid_size
              position heatmap_type show_breakeven HK HN)
    as (p & g & s & _ & _ & _ & Hrun).
  eexists. split; [exact Hrun |].
  cbn [axis_spots axis_vols price_matrix pnl_matrix z_data].
  assert (Hs : List.length (spot_prices S spot_range grid_size) = grid_size)
    by apply length_linspace.
  assert (Hv : List.length (volatilities sigma vol_range grid_size) = grid_size)
    by apply length_linspace.
  split; [exact Hs |]. split; [exact Hv |].
  assert (Hprice : shaped
            (map (fun vol => map (fun spot =>
                    scenario_price option_type (Fin K) T r vol spot)
                    (spot_prices S spot_range grid_size))
                 (volatilities sigma vol_range grid_size)) grid_size grid_size).
  { rewrite <- Hv at 2. rewrite <- Hs at 3. apply shaped_map_map. }
  assert (Hpnl : shaped
            (map (fun vol => map (fun spot =>
                    pnl_of position (scenario_price option_type (Fin K) T r vol spot) p)
                    (spot_prices S spot_range grid_size))
                 (volatilities sigma vol_range grid_size)) grid_size grid_size).
  { rewrite <- Hv at 2. rewrite <- Hs at 3. apply shaped_map_map. }
  split; [exact Hprice |]. split; [exact Hpnl |].
  unfold z_data_of.
  destruct (heatmap_type =? "P&L"); [exact Hpnl |].
  destruct (heatmap_type =? "Option Price"); [exact Hprice |].
  unfold Np.scale_pct. now apply shaped_map_cells.
Qed.

Lemma run_grid_shape_witness :
  exists out : outputs,
    run (Fin 100) (Fin 100) (Fin 0.25) (Fin 0.05) (Fin 0.2) "put"
        (-40, 40)%Z (-30, 50)%Z 30 "Short" "% P&L" false = Ok out
    /\ shaped (pnl_matrix out) 30 30
    /\ shaped (z_data out) 30 30.
Proof.
  destruct (run_grid_shape (Fin 100) (Fin 0.25) (Fin 0.05) (Fin 0.2) 100 "put"
              (-40, 40)%Z (-30, 50)%Z 30 "Short" "% P&L" false)
    as (out & Hrun & _ & _ & _ & Hp & Hz).
  - lra.
  - lia.
  - exists out. split; [exact Hrun |]. split; assumption.
Defined.

(** X12. The failures of a run: with K = 0 it raises ZeroDivisionError
    (the anchor price divides two builtin floats); with K <> 0 and no
    sample on the axes it raises ValueError (the maximum of an empty
    matrix); with K <> 0 and at least one sample it returns. *)
Theorem run_failures (S T r sigma : num) (K : R) (option_type : string)
    (spot_range vol_range : Z * Z) (grid_size : nat)
    (position heatmap_type : string) (show_breakeven : bool) :
  (K = 0 ->
     run S (Fin K) T r sigma option_type spot_range vol_range grid_size
         position heatmap_type show_breakeven = Raise ZeroDivisionError)
  /\ (K <> 0 -> grid_size = 0%nat ->
     run S (Fin K) T r sigma option_type spot_range vol_range grid_size
         position heatmap_type show_breakeven = Raise ValueError)
  /\ (K <> 0 -> (1 <= grid_size)%nat ->
     exists out : outputs,
       run S (Fin K) T r sigma option_type spot_range vol_range grid_size
           position heatmap_type show_breakeven = Ok out).
Proof.
  split; [| split].
  - intros ->. unfold run, option_price_of, black_scholes_call, black_scholes_put, truediv.
    destruct (Req_dec_T 0 0) as [_ | N]; [| now contradiction N].
    destruct (option_type =? "call"); reflexivity.
  - intros HK ->. unfold run.
    assert (Hdiv : truediv py_float S (Fin K) = Ok (S / Fin K)%num).
    { unfold truediv. destruct (Req_dec_T K 0); [contradiction | reflexivity]. }
    assert (Hprice : exists p, option_price_of py_float option_type S (Fin K) T r sigma = Ok p).
    { unfold option_price_of, black_scholes_call, black_scholes_put. rewrite Hdiv.
      destruct (option_type =? "call"); eexists; reflexivity. }
    destruct Hprice as [p Hp]. rewrite Hp. cbn [bind].
    unfold calculate_greeks. rewrite Hdiv. cbn [bind].
    unfold spot_prices, volatilities, Np.linspace. cbn [seq map Nat.sub Nat.ltb Nat.leb].
    cbn [grid_cells mapM bind price_matrix_of pnl_matrix_of map].
    unfold breakeven_of, breakeven_scan. cbn [enumerate List.length seq combine for_each].
    destruct (show_breakeven && is_pnl_heatmap heatmap_type); reflexivity.
  - intros HK HN.
    destruct (run_total S T r sigma K option_type spot_range vol_range grid_size
                position heatmap_type show_breakeven HK HN)
      as (p & g & s & _ & _ & _ & Hrun).
    eexists. exact Hrun.
Qed.

Lemma run_failures_witness :
  run (Fin 100) (Fin 0) (Fin 0.25) (Fin 0.05) (Fin 0.2) "call"
      (-40, 40)%Z (-30, 50)%Z 30 "Long" "P&L" true = Raise ZeroDivisionError
  /\ run (Fin 100) (Fin 100) (Fin 0.25) (Fin 0.05) (Fin 0.2) "call"
      (-40, 40)%Z (-30, 50)%Z 0 "Long" "P&L" true = Raise ValueError.
Proof.
  split.
  - destruct (run_failures (Fin 100) (Fin 0.25) (Fin 0.05) (Fin 0.2) 0 "call"
                (-40, 40)%Z (-30, 50)%Z 30 "Long" "P&L" true) as (H & _).
    apply H. reflexivity.
  - destruct (run_failures (Fin 100) (Fin 0.25) (Fin 0.05) (Fin 0.2) 100 "call"
                (-40, 40)%Z (-30, 50)%Z 0 "Long" "P&L" true) as (_ & H & _).
    apply H; [lra | reflexivity].
Defined.

Lemma nth_error_map_seq_lt {A : Type} (f : nat -> A) (n i : nat) :
  (i < n)%nat -> nth_error (map f (seq 0 n)) i = Some (f i).
Proof.
  intro Hi. rewrite nth_error_map, nth_error_seq.
  destruct (Nat.ltb_spec i n) as [_ | Hge]; [reflexivity | lia].
Qed.

(** X13. On inputs the sidebar and the sliders allow (S, K, T, sigma > 0,
    range percentages above -100, at least one sample) the grid holds no
    NaN and no infinity: the axes are positive numbers, every price cell
    is the closed form at its spot and volatility, and every P&L cell is
    its difference with the anchor, signed by the position. *)
Theorem run_grid_finite (S K T r sigma : R) (option_type : string)
    (spot_low spot_high vol_low vol_high : Z) (grid_size : nat)
    (position heatmap_type : string) (show_breakeven : bool) :
  0 < S -> 0 < K -> 0 < T -> 0 < sigma ->
  (-100 < spot_low)%Z -> (-100 < spot_high)%Z -> (-100 < vol_high)%Z ->
  (1 <= grid_size)%nat ->
  exists out : outputs,
    run (Fin S) (Fin K) (Fin T) (Fin r) (Fin sigma) option_type
        (spot_low, spot_high) (vol_low, vol_high) grid_size
        position heatmap_type show_breakeven = Ok out
    /\ option_price out = Fin (Spec.price option_type S K T r sigma)
    /\ forall i j : nat,
         (i < grid_size)%nat -> (j < grid_size)%nat ->
         exists vol spot : R,
           nth_error (axis_vols out) i = Some (Fin vol) /\ 0 < vol
           /\ nth_error (axis_spots out) j = Some (Fin spot) /\ 0 < spot
           /\ Np.get (price_matrix out) i j
              = Ok (Fin (Spec.price option_type spot K T r vol))
           /\ Np.get (pnl_matrix out) i j
              = Ok (Fin (if position =? "Long"
                         then Spec.price option_type spot K T r vol
                              - Spec.price option_type S K T r sigma
                         else Spec.price option_type S K T r sigma
                              - Spec.price option_type spot K T r vol)).
Proof.
  intros HS HK HT Hs Hsl Hsh Hvh HN.
  assert (HK0 : K <> 0) by lra.
  destruct (run_total (Fin S) (Fin T) (Fin r) (Fin sigma) K option_type
              (spot_low, spot_high) (vol_low, vol_high) grid_size
              position heatmap_type show_breakeven HK0 HN)
    as (p & g & s & Hp & _ & _ & Hrun).
  assert (Hanchor : p = Fin (Spec.price option_type S K T r sigma)).
  { destruct (pricing_finite py_float S K T r sigma) as [Hc Hput]; try lra.
    { apply Rdiv_lt_0_compat; assumption. }
    unfold option_price_of in Hp. unfold Spec.price.
    destruct (option_type =? "call"); congruence. }
  subst p.
  eexists. split; [exact Hrun |].
  cbn [option_price axis_vols axis_spots price_matrix pnl_matrix].
  split; [reflexivity |].
  intros i j Hi Hj.
  rewrite spot_prices_fin, volatilities_fin. cbv zeta.
  set (slo := S * (1 + IZR spot_low / 100)).
  set (shi := S * (1 + IZR spot_high / 100)).
  set (vlo := Rmax 0.01 (sigma * (1 + IZR vol_low / 100))).
  set (vhi := sigma * (1 + IZR vol_high / 100)).
  set (spot := slo + INR j * ((shi - slo) / INR (grid_size - 1))).
  set (vol := vlo + INR i * ((vhi - vlo) / INR (grid_size - 1))).
  assert (Hspot : 0 < spot).
  { assert (Hb := sample_between slo shi grid_size j Hj). fold spot in Hb.
    assert (0 < slo) by (unfold slo; apply IZR_lt in Hsl; nra).
    assert (0 < shi) by (unfold shi; apply IZR_lt in Hsh; nra).
    assert (0 < Rmin slo shi) by (apply Rmin_glb_lt; assumption). lra. }
  assert (Hvol : 0 < vol).
  { assert (Hb := sample_between vlo vhi grid_size i Hi). fold vol in Hb.
    assert (0 < vlo) by (generalize (Rmax_l 0.01 (sigma * (1 + IZR vol_low / 100)));
                         fold vlo; lra).
    assert (0 < vhi) by (unfold vhi; apply IZR_lt in Hvh; nra).
    assert (0 < Rmin vlo vhi) by (apply Rmin_glb_lt; assumption). lra. }
  assert (Hni : nth_error
            (map (fun i0 => Fin (vlo + INR i0 * ((vhi - vlo) / INR (grid_size - 1))))
                 (seq 0 grid_size)) i = Some (Fin vol))
    by (rewrite nth_error_map_seq_lt by exact Hi; reflexivity).
  assert (Hnj : nth_error
            (map (fun i0 => Fin (slo + INR i0 * ((shi - slo) / INR (grid_size - 1))))
                 (seq 0 grid_size)) j = Some (Fin spot))
    by (rewrite nth_error_map_seq_lt by exact Hj; reflexivity).
  exists vol, spot.
  split; [exact Hni |]. split; [exact Hvol |].
  split; [exact Hnj |]. split; [exact Hspot |].
  rewrite !(get_map_map _ _ _ i j (Fin vol) (Fin spot) Hni Hnj).
  rewrite scenario_price_fin by assumption.
  split; [reflexivity |].
  unfold pnl_of. destruct (position =? "Long"); reflexivity.
Qed.

Lemma run_grid_finite_witness :
  exists out : outputs,
    run (Fin 100) (Fin 100) (Fin 0.25) (Fin 0.05) (Fin 0.2) "call"
        (-40, 40)%Z (-30, 50)%Z 30 "Long" "P&L" true = Ok out
    /\ option_price out = Fin (Spec.price "call" 100 100 0.25 0.05 0.2)
    /\ exists vol spot : R,
         0 < vol /\ 0 < spot
         /\ Np.get (price_matrix out) 3 7
            = Ok (Fin (Spec.price "call" spot 100 0.25 0.05 vol)).
Proof.
  destruct (run_grid_finite 100 100 0.25 0.05 0.2 "call" (-40) 40 (-30) 50 30
              "Long" "P&L" true) as (out & Hrun & Hanchor & Hcells); try lra; try lia.
  exists out. split; [exact Hrun |]. split; [exact Hanchor |].
  destruct (Hcells 3%nat 7%nat) as (vol & spot & _ & Hv & _ & Hs & Hprice & _); try lia.
  exists vol, spot. repeat split; assumption.
Defined.

(** ** The scenario at the middle of the grid *)

Lemma in_matrix_points (m : Np.matrix) (vols spots : list num) (i j : nat)
    (vol spot x : num) :
  nth_error vols i = Some vol -> nth_error spots j = Some spot ->
  Np.get m i j = Ok x -> nlt (nabs x) (Fin 0.01) = true ->
  In (spot, (vol * Fin 100)%num) (matrix_points m vols spots).
Proof.
  intros Hi Hj Hx Hnear. unfold matrix_points. rewrite in_flat_map.
  exists (i, vol). split; [now apply in_enumerate |].
  unfold row_points. rewrite in_flat_map.
  exists (j, spot). split; [now apply in_enumerate |].
  rewrite Hx, Hnear. now left.
Qed.

Lemma pnl_of_anchor (position : string) (c : R) : pnl_of position (Fin c) (Fin c) = Fin 0.
Proof.
  unfold pnl_of. destruct (position =? "Long"); cbn [nsub]; f_equal; lra.
Qed.

(** The middle sample of an odd number of samples between two ends that
    lie at the same distance on either side of [x] is [x]. *)
Lemma middle_sample (x d : R) (n : nat) :
  (1 <= n)%nat ->
  (x - d) + INR n * (((x + d) - (x - d)) / INR (2 * n + 1 - 1)) = x.
Proof.
  intro Hn.
  replace (2 * n + 1 - 1)%nat with (2 * n)%nat by lia.
  rewrite mult_INR. change (INR 2) with 2.
  assert (H : INR n <> 0) by (apply not_0_INR; lia).
  field. exact H.
Qed.

(** X10. When the two ranges are symmetric (-a, a) and (-b, b), the
    number of samples is odd (2n + 1 with n >= 1) and the floor at 0.01 is
    below the lower volatility, the middle samples of the two axes are the
    current spot S and the current volatility sigma; on valid inputs
    (S, K, T, sigma > 0) the middle cell of a run holds the anchor price
    and the P&L 0, which passes the breakeven test, and with a P&L metric
    and the breakeven toggle set the point (S, 100 sigma) is among the
    breakeven markers. *)
Theorem centre_cell_breaks_even (S K T r sigma : R)
    (option_type position heatmap_type : string) (a b : Z) (n : nat) :
  0 < S -> 0 < K -> 0 < T -> 0 < sigma ->
  (1 <= n)%nat ->
  0.01 <= sigma * (1 - IZR b / 100) ->
  is_pnl_heatmap heatmap_type = true ->
  exists (out : outputs) (bs bv : list num),
    run (Fin S) (Fin K) (Fin T) (Fin r) (Fin sigma) option_type
        (- a, a)%Z (- b, b)%Z (2 * n + 1) position heatmap_type true = Ok out
    /\ nth_error (axis_spots out) n = Some (Fin S)
    /\ nth_error (axis_vols out) n = Some (Fin sigma)
    /\ Np.get (price_matrix out) n n = Ok (option_price out)
    /\ Np.get (pnl_matrix out) n n = Ok (Fin 0)
    /\ nlt (nabs (Fin 0)) (Fin 0.01) = true
    /\ breakeven out = Some (bs, bv)
    /\ In (Fin S, Fin (sigma * 100)) (combine bs bv).
Proof.
  intros HS HK HT Hs Hn Hfloor Hmetric.
  assert (HK0 : K <> 0) by lra.
  assert (HSK : 0 < S / K) by (apply Rdiv_lt_0_compat; assumption).
  assert (Hnear : nlt (nabs (Fin 0)) (Fin 0.01) = true).
  { apply near_breakeven_fin. rewrite Rabs_R0. lra. }
  destruct (run_total (Fin S) (Fin T) (Fin r) (Fin sigma) K option_type
              (- a, a)%Z (- b, b)%Z (2 * n + 1) position heatmap_type true HK0)
    as (p & g & s & Hp & _ & _ & Hrun); [lia |].
  rewrite Hmetric in Hrun. cbn [andb] in Hrun.
  assert (Hc : exists c, p = Fin c).
  { unfold option_price_of in Hp.
    destruct (pricing_finite py_float S K T r sigma) as [Hcall Hput]; try lra.
    destruct (option_type =? "call"); [rewrite Hcall in Hp | rewrite Hput in Hp];
      injection Hp as <-; eexists; reflexivity. }
  destruct Hc as [c ->].
  assert (Hspot : nth_error (spot_prices (Fin S) (- a, a)%Z (2 * n + 1)) n = Some (Fin S)).
  { rewrite spot_prices_fin, nth_error_map_seq_lt by lia. do 2 f_equal.
    rewrite opp_IZR.
    replace (S * (1 + - IZR a / 100)) with (S - S * IZR a / 100) by lra.
    replace (S * (1 + IZR a / 100)) with (S + S * IZR a / 100) by lra.
    apply middle_sample. exact Hn. }
  assert (Hvol : nth_error (volatilities (Fin sigma) (- b, b)%Z (2 * n + 1)) n
                 = Some (Fin sigma)).
  { rewrite volatilities_fin, nth_error_map_seq_lt by lia. do 2 f_equal.
    rewrite opp_IZR.
    rewrite Rmax_right by lra.
    replace (sigma * (1 + - IZR b / 100)) with (sigma - sigma * IZR b / 100) by lra.
    replace (sigma * (1 + IZR b / 100)) with (sigma + sigma * IZR b / 100) by lra.
    apply middle_sample. exact Hn. }
  assert (Hscen : scenario_price option_type (Fin K) (Fin T) (Fin r) (Fin sigma) (Fin S)
                  = Fin c).
  { unfold scenario_price. rewrite <- dispatch_types_agree by exact HK0.
    rewrite Hp. reflexivity. }
  eexists. do 2 eexists.
  split; [exact Hrun |].
  cbn [axis_spots axis_vols price_matrix pnl_matrix option_price breakeven].
  split; [exact Hspot |]. split; [exact Hvol |].
  split.
  { rewrite (get_map_map
               (fun vol spot => scenario_price option_type (Fin K) (Fin T) (Fin r) vol spot)
               _ _ n n (Fin sigma) (Fin S) Hvol Hspot).
    now rewrite Hscen. }
  assert (Hget : Np.get
                   (map (fun vol => map (fun spot =>
                      pnl_of position
                        (scenario_price option_type (Fin K) (Fin T) (Fin r) vol spot)
                        (Fin c))
                      (spot_prices (Fin S) (- a, a)%Z (2 * n + 1)))
                      (volatilities (Fin sigma) (- b, b)%Z (2 * n + 1))) n n
                 = Ok (Fin 0)).
  { rewrite (get_map_map
               (fun vol spot =>
                  pnl_of position
                    (scenario_price option_type (Fin K) (Fin T) (Fin r) vol spot) (Fin c))
               _ _ n n (Fin sigma) (Fin S) Hvol Hspot).
    now rewrite Hscen, pnl_of_anchor. }
  split; [exact Hget |]. split; [exact Hnear |].
  split; [reflexivity |].
  rewrite combine_fst_snd.
  change (Fin (sigma * 100)) with (Fin sigma * Fin 100)%num.
  eapply in_matrix_points; eassumption.
Qed.

Lemma centre_cell_breaks_even_witness :
  exists (out : outputs) (bs bv : list num),
    run (Fin 100) (Fin 100) (Fin 0.25) (Fin 0.05) (Fin 0.2) "call"
        (-40, 40)%Z (-30, 30)%Z 31 "Long" "P&L" true = Ok out
    /\ Np.get (pnl_matrix out) 15 15 = Ok (Fin 0)
    /\ breakeven out = Some (bs, bv)
    /\ In (Fin 100, Fin (0.2 * 100)) (combine bs bv).
Proof.
  destruct (centre_cell_breaks_even 100 100 0.25 0.05 0.2 "call" "Long" "P&L" 40 30 15)
    as (out & bs & bv & Hrun & _ & _ & _ & Hget & _ & Hbe & Hin);
    try lra; try lia; try reflexivity.
  exists out, bs, bv. repeat split; assumption.
Defined.

(** ** Percentage P&L *)

Lemma get_scale_pct (m : Np.matrix) (c : num) (i j : nat) :
  Np.get (Np.scale_pct m c) i j
  = match Np.get m i j with
    | Ok y => Ok (y / c * Fin 100)%num
    | Raise e => Raise e
    end.
Proof.
  unfold Np.get, Np.scale_pct. rewrite nth_error_map.
  destruct (nth_error m i) as [row |]; [| reflexivity]. cbn [option_map].
  rewrite nth_error_map. now destruct (nth_error row j).
Qed.

Lemma pct_of_zero_anchor (y : num) (v : R) : (y / Fin 0 * Fin 100)%num <> Fin v.
Proof.
  unfold ndiv, nmul, inf_of_sign, Rnegative.
  destruct y as [x | | |];
    repeat (match goal with |- context [if ?c then _ else _] => destruct c end);
    try discriminate; try lra.
Qed.

(** X14. Percentage P&L against an anchor price of zero: the division is
    numpy's, so nothing is raised, and no cell of the matrix drawn is a
    finite number (each one is an infinity or NaN). *)
Theorem pct_pnl_zero_anchor (pnl_matrix price_matrix : Np.matrix) (i j : nat) (y : num) :
  Np.get pnl_matrix i j = Ok y ->
  exists x : num,
    Np.get (z_data_of "% P&L" pnl_matrix price_matrix (Fin 0)) i j = Ok x
    /\ forall v : R, x <> Fin v.
Proof.
  intro Hy. unfold z_data_of. cbn [String.eqb Ascii.eqb Bool.eqb].
  rewrite get_scale_pct, Hy. eexists. split; [reflexivity |].
  intro v. apply pct_of_zero_anchor.
Qed.

Lemma pct_pnl_zero_anchor_witness :
  exists x : num,
    Np.get (z_data_of "% P&L" [[Fin 1; Fin 0]] [[Fin 1; Fin 0]] (Fin 0)) 0 1 = Ok x
    /\ forall v : R, x <> Fin v.
Proof.
  apply (pct_pnl_zero_anchor [[Fin 1; Fin 0]] [[Fin 1; Fin 0]] 0 1 (Fin 0)).
  reflexivity.
Defined.

(** ** Breakeven points of a long and of a short position *)

Lemma nabs_nneg (x : num) : nabs (- x)%num = nabs x.
Proof.
  destruct x; cbn; try reflexivity. now rewrite Rabs_Ropp.
Qed.

Lemma flat_map_ext_in {A B : Type} (f g : A -> list B) (l : list A) :
  (forall a, In a l -> f a = g a) -> flat_map f l = flat_map g l.
Proof.
  intro H. induction l as [| a l IH]; [reflexivity |].
  cbn [flat_map]. rewrite (H a) by now left.
  rewrite IH; [reflexivity |]. intros b Hb. apply H. now right.
Qed.

(** X15. The breakeven points do not depend on the position: the scan of
    the short grid returns the same two lists as the scan of the long
    grid built from the same parameters. *)
Theorem breakeven_same_for_both_positions (option_type : string)
    (K T r option_price : num) (vols spots : list num) :
  exists cells_long cells_short : list (list (num * num)),
    grid_cells option_type K T r "Long" option_price vols spots = Ok cells_long
    /\ grid_cells option_type K T r "Short" option_price vols spots = Ok cells_short
    /\ exists pts : list num * list num,
         breakeven_scan (pnl_matrix_of cells_long) vols spots = Ok pts
         /\ breakeven_scan (pnl_matrix_of cells_short) vols spots = Ok pts.
Proof.
  do 2 eexists. split; [apply grid_cells_total |]. split; [apply grid_cells_total |].
  rewrite !pnl_matrix_of_map.
  set (long := map (fun vol => map (fun spot => pnl_of "Long" _ option_price) spots) vols).
  set (short := map (fun vol => map (fun spot => pnl_of "Short" _ option_price) spots) vols).
  eexists. split; [apply breakeven_scan_total, shaped_map_map |].
  rewrite (breakeven_scan_total short) by apply shaped_map_map.
  assert (E : matrix_points short vols spots = matrix_points long vols spots);
    [| now rewrite E].
  unfold matrix_points.
  apply flat_map_ext_in. intros [i vol] Hi. apply in_enumerate in Hi.
  unfold row_points.
  apply flat_map_ext_in. intros [j spot] Hj. apply in_enumerate in Hj.
  unfold long, short.
  rewrite !(get_map_map _ vols spots i j vol spot Hi Hj).
  unfold pnl_of. cbn [String.eqb Ascii.eqb Bool.eqb].
  now rewrite <- nneg_nsub, nabs_nneg.
Qed.

(** ** Bounds on the summary *)

Lemma count_positive_le (xs : list R) :
  (Stats.count_positive xs <= List.length xs)%nat.
Proof. apply filter_length_le. Qed.

Lemma count_positive_none (xs : list R) :
  (forall x, In x xs -> x <= 0) -> Stats.count_positive xs = 0%nat.
Proof.
  intro H. unfold Stats.count_positive. induction xs as [| x xs IH]; [reflexivity |].
  cbn [filter]. unfold Stats.positive at 1.
  destruct (Rlt_dec 0 x) as [L | _].
  - specialize (H x (or_introl eq_refl)). lra.
  - apply IH. intros y Hy. apply H. now right.
Qed.

Lemma count_positive_all (xs : list R) :
  (forall x, In x xs -> 0 < x) -> Stats.count_positive xs = List.length xs.
Proof.
  intro H. unfold Stats.count_positive. induction xs as [| x xs IH]; [reflexivity |].
  cbn [filter]. unfold Stats.positive at 1.
  destruct (Rlt_dec 0 x) as [_ | N].
  - cbn [List.length]. f_equal. apply IH. intros y Hy. apply H. now right.
  - exfalso. apply N, H. now left.
Qed.

Lemma count_positive_zero (xs : list R) :
  Stats.count_positive xs = 0%nat -> forall x, In x xs -> x <= 0.
Proof.
  unfold Stats.count_positive. induction xs as [| y xs IH]; [intros _ x [] |].
  cbn [filter]. unfold Stats.positive at 1.
  destruct (Rlt_dec 0 y) as [L | N]; [discriminate |].
  intros H x [<- | Hx]; [lra | now apply IH].
Qed.

Lemma count_positive_full (xs : list R) :
  Stats.count_positive xs = List.length xs -> forall x, In x xs -> 0 < x.
Proof.
  unfold Stats.count_positive. induction xs as [| y xs IH]; [intros _ x [] |].
  cbn [filter]. unfold Stats.positive at 1.
  destruct (Rlt_dec 0 y) as [L | N].
  - cbn [List.length]. intros [= H] x [<- | Hx]; [exact L | now apply IH].
  - intro H. exfalso. assert (Hle := filter_length_le Stats.positive xs).
    cbn [List.length] in H. fold Stats.positive in H. lia.
Qed.

(** X16. For a non-empty matrix of finite values: maxLoss <= maxProfit,
    the standard deviation is not negative, the profit probability lies
    between 0 and 100; it is 0 exactly when maxProfit <= 0 and 100 exactly
    when maxLoss > 0. *)
Theorem summary_bounds (m : Np.matrix) (xs : list R) :
  Np.flat m = map Fin xs -> xs <> [] ->
  exists (s : summary) (mn mx sd pp : R),
    summary_of m = Ok s
    /\ max_loss s = Fin mn /\ max_profit s = Fin mx
    /\ pnl_std s = Fin sd /\ profit_prob s = Fin pp
    /\ mn <= mx
    /\ 0 <= sd
    /\ 0 <= pp <= 100
    /\ (mx <= 0 <-> pp = 0)
    /\ (0 < mn <-> pp = 100).
Proof.
  intros Hflat Hne. destruct xs as [| x xs]; [contradiction |].
  eexists. do 4 eexists.
  split; [apply summary_of_fin; exact Hflat |].
  cbn [max_loss max_profit pnl_std profit_prob].
  do 4 (split; [reflexivity |]).
  destruct (fold_Rmax_spec xs x) as [Hinmx Hub].
  destruct (fold_Rmin_spec xs x) as [Hinmn Hlb].
  set (mx := fold_left Rmax xs x) in *. set (mn := fold_left Rmin xs x) in *.
  assert (Hb : forall y, In y (x :: xs) -> mn <= y <= mx).
  { intros y Hy. split; [now apply Hlb | now apply Hub]. }
  assert (Hn : 0 < INR (List.length (x :: xs))) by (apply lt_0_INR; cbn; lia).
  assert (Hc := count_positive_le (x :: xs)). apply le_INR in Hc.
  assert (Hc0 := pos_INR (Stats.count_positive (x :: xs))).
  split; [specialize (Hb x (or_introl eq_refl)); lra |].
  split; [apply sqrt_pos |].
  assert (Hq : 0 <= INR (Stats.count_positive (x :: xs)) / INR (List.length (x :: xs)) <= 1).
  { split.
    - apply Rmult_le_pos; [exact Hc0 | left; now apply Rinv_0_lt_compat].
    - apply Rmult_le_reg_r with (INR (List.length (x :: xs))); [exact Hn |].
      unfold Rdiv. rewrite Rmult_assoc, Rinv_l by lra. lra. }
  split; [lra |]. split; split.
  - intro Hmx. rewrite count_positive_none.
    + cbn [INR]. unfold Rdiv. ring.
    + intros y Hy. specialize (Hb y Hy). lra.
  - intro Hpp. apply (count_positive_zero (x :: xs)); [| exact Hinmx].
    apply INR_eq. cbn [INR].
    apply Rmult_eq_reg_r with (/ INR (List.length (x :: xs)));
      [| apply Rinv_neq_0_compat; lra].
    unfold Rdiv in Hpp. lra.
  - intro Hmn. rewrite count_positive_all.
    + field. lra.
    + intros y Hy. specialize (Hb y Hy). lra.
  - intro Hpp. apply (count_positive_full (x :: xs)); [| exact Hinmn].
    apply INR_eq.
    apply Rmult_eq_reg_r with (/ INR (List.length (x :: xs)));
      [| apply Rinv_neq_0_compat; lra].
    rewrite Rinv_r by lra. unfold Rdiv in Hpp. lra.
Qed.

Lemma summary_bounds_witness :
  exists (s : summary) (mn mx sd pp : R),
    summary_of [[Fin 1; Fin (-2)]; [Fin 3; Fin 0]] = Ok s
    /\ max_loss s = Fin mn /\ max_profit s = Fin mx
    /\ pnl_std s = Fin sd /\ profit_prob s = Fin pp
    /\ mn <= mx
    /\ 0 <= sd
    /\ 0 <= pp <= 100.
Proof.
  destruct (summary_bounds [[Fin 1; Fin (-2)]; [Fin 3; Fin 0]] [1; -2; 3; 0])
    as (s & mn & mx & sd & pp & Hs & H1 & H2 & H3 & H4 & H5 & H6 & H7 & _).
  - reflexivity.
  - discriminate.
  - exists s, mn, mx, sd, pp. repeat split; try assumption; lra.
Defined.

(** ** The summary of the opposite position *)

Lemma fold_Rmax_opp (xs : list R) (x : R) :
  fold_left Rmax (map Ropp xs) (- x) = - fold_left Rmin xs x.
Proof.
  revert x. induction xs as [| y xs IH]; intro x; [reflexivity |].
  cbn [map fold_left].
  replace (Rmax (- x) (- y)) with (- Rmin x y); [apply IH |].
  unfold Rmax, Rmin. destruct (Rle_dec (- x) (- y)), (Rle_dec x y); lra.
Qed.

Lemma fold_Rmin_opp (xs : list R) (x : R) :
  fold_left Rmin (map Ropp xs) (- x) = - fold_left Rmax xs x.
Proof.
  revert x. induction xs as [| y xs IH]; intro x; [reflexivity |].
  cbn [map fold_left].
  replace (Rmin (- x) (- y)) with (- Rmax x y); [apply IH |].
  unfold Rmax, Rmin. destruct (Rle_dec (- x) (- y)), (Rle_dec x y); lra.
Qed.

Lemma total_opp (xs : list R) : Stats.total (map Ropp xs) = - Stats.total xs.
Proof.
  unfold Stats.total. induction xs as [| x xs IH]; cbn [map fold_right]; [lra |].
  rewrite IH. lra.
Qed.

Lemma mean_opp (xs : list R) : Stats.mean (map Ropp xs) = - Stats.mean xs.
Proof.
  unfold Stats.mean. rewrite total_opp, length_map. unfold Rdiv. ring.
Qed.

Lemma std_opp (xs : list R) : Stats.std (map Ropp xs) = Stats.std xs.
Proof.
  unfold Stats.std, Stats.variance. rewrite mean_opp, length_map, map_map.
  do 3 f_equal. apply map_ext. intro x. ring.
Qed.

(** X17. Negating every cell of a finite, non-empty matrix (as going from
    a long to a short position does) swaps and negates the extremes,
    negates the mean and the risk-reward ratio, and keeps the standard
    deviation. *)
Theorem summary_of_negated (m m' : Np.matrix) (xs : list R) :
  Np.flat m = map Fin xs -> Np.flat m' = map Fin (map Ropp xs) -> xs <> [] ->
  exists s s' : summary,
    summary_of m = Ok s /\ summary_of m' = Ok s'
    /\ max_profit s' = (- max_loss s)%num
    /\ max_loss s' = (- max_profit s)%num
    /\ pnl_mean s' = (- pnl_mean s)%num
    /\ pnl_std s' = pnl_std s
    /\ sharpe_approx s' = (- sharpe_approx s)%num.
Proof.
  intros Hm Hm' Hne. destruct xs as [| x xs]; [contradiction |].
  cbn [map] in Hm'.
  do 2 eexists.
  split; [apply summary_of_fin; exact Hm |].
  split; [apply summary_of_fin; exact Hm' |].
  cbn [max_profit max_loss pnl_mean pnl_std sharpe_approx nneg].
  change (- x :: map Ropp xs) with (map Ropp (x :: xs)).
  rewrite fold_Rmax_opp, fold_Rmin_opp, mean_opp, std_opp.
  repeat split.
  destruct (Rlt_dec 0 (Stats.std (x :: xs))); cbn [nneg]; f_equal.
  - unfold Rdiv. ring.
  - lra.
Qed.

Lemma summary_of_negated_witness :
  exists s s' : summary,
    summary_of [[Fin 1; Fin (-2)]; [Fin 3; Fin 0]] = Ok s
    /\ summary_of [[Fin (-1); Fin (- -2)]; [Fin (-3); Fin (-0)]] = Ok s'
    /\ max_profit s' = (- max_loss s)%num
    /\ pnl_std s' = pnl_std s.
Proof.
  destruct (summary_of_negated [[Fin 1; Fin (-2)]; [Fin 3; Fin 0]]
              [[Fin (-1); Fin (- -2)]; [Fin (-3); Fin (-0)]] [1; -2; 3; 0])
    as (s & s' & Hs & Hs' & H1 & _ & _ & H2 & _).
  - reflexivity.
  - reflexivity.
  - discriminate.
  - exists s, s'. repeat split; assumption.
Defined.

(** ** NaN in the matrix *)

Lemma nadd_nan_r (a : num) : (a + NaN)%num = NaN.
Proof. now destruct a. Qed.

Lemma maximum_nan_r (a : num) : Np.maximum a NaN = NaN.
Proof. now destruct a. Qed.

Lemma minimum_nan_r (a : num) : Np.minimum a NaN = NaN.
Proof. now destruct a. Qed.

Lemma fold_maximum_nan (xs : list num) (a : num) :
  a = NaN \/ In NaN xs -> fold_left Np.maximum xs a = NaN.
Proof.
  revert a. induction xs as [| x xs IH]; intros a H.
  - destruct H as [H | []]. exact H.
  - cbn [fold_left]. apply IH.
    destruct H as [-> | [-> | H]].
    + now left.
    + left. apply maximum_nan_r.
    + now right.
Qed.

Lemma fold_minimum_nan (xs : list num) (a : num) :
  a = NaN \/ In NaN xs -> fold_left Np.minimum xs a = NaN.
Proof.
  revert a. induction xs as [| x xs IH]; intros a H.
  - destruct H as [H | []]. exact H.
  - cbn [fold_left]. apply IH.
    destruct H as [-> | [-> | H]].
    + now left.
    + left. apply minimum_nan_r.
    + now right.
Qed.

Lemma sum_nan (xs : list num) : In NaN xs -> Np.sum xs = NaN.
Proof.
  unfold Np.sum. induction xs as [| x xs IH]; [contradiction |].
  intros [-> | H]; cbn [fold_right]; [reflexivity |].
  rewrite IH by exact H. apply nadd_nan_r.
Qed.

(** X18. A single NaN cell spoils the summary silently: maximum profit,
    maximum loss, mean and standard deviation are all NaN, nothing is
    raised, and the risk-reward ratio reads 0 because the comparison
    [pnl_std > 0] is false for NaN. *)
Theorem summary_of_nan (m : Np.matrix) :
  In NaN (Np.flat m) ->
  exists s : summary,
    summary_of m = Ok s
    /\ max_profit s = NaN /\ max_loss s = NaN
    /\ pnl_mean s = NaN /\ pnl_std s = NaN
    /\ sharpe_approx s = Fin 0.
Proof.
  intro Hin.
  assert (Hmean : Np.mean m = NaN).
  { unfold Np.mean. now rewrite sum_nan. }
  assert (Hstd : Np.std m = NaN).
  { unfold Np.std. rewrite (sum_nan _ Hin), ndiv_nan_l.
    rewrite sum_nan; [reflexivity |].
    rewrite map_map. apply in_map_iff. exists NaN. split; [| exact Hin].
    now rewrite nsub_nan_r. }
  unfold summary_of, Np.max, Np.min. rewrite Hmean, Hstd.
  destruct (Np.flat m) as [| x xs] eqn:E; [contradiction |].
  cbn [bind]. eexists. split; [reflexivity |].
  cbn [max_profit max_loss pnl_mean pnl_std sharpe_approx].
  assert (H : x = NaN \/ In NaN xs) by (destruct Hin as [-> | H]; auto).
  rewrite fold_maximum_nan, fold_minimum_nan by exact H.
  repeat split.
Qed.

Lemma summary_of_nan_witness :
  exists s : summary,
    summary_of [[Fin 1; NaN]; [Fin 3; Fin 0]] = Ok s
    /\ max_profit s = NaN /\ sharpe_approx s = Fin 0.
Proof.
  destruct (summary_of_nan [[Fin 1; NaN]; [Fin 3; Fin 0]])
    as (s & Hs & H1 & _ & _ & _ & H2).
  - cbn. tauto.
  - exists s. repeat split; assumption.
Defined.

(** ** The sensitivity curves *)

Lemma mapM_total_in {A B : Type} (f : A -> res B) (g : A -> B) (l : list A) :
  (forall a, In a l -> f a = Ok (g a)) -> mapM f l = Ok (map g l).
Proof.
  intro H. induction l as [| a l IH]; [reflexivity |].
  cbn [mapM map]. rewrite (H a) by now left.
  rewrite IH by (intros b Hb; apply H; now right). reflexivity.
Qed.

(** X19. The two sensitivity curves on valid inputs (S, K, T, sigma > 0):
    each has 100 points, all finite; point i of the first is the closed
    form at the spot S (0.7 + 0.6 i / 99) and the volatility of the
    sidebar, point i of the second the closed form at the spot of the
    sidebar and the volatility 0.05 + 0.95 i / 99, whatever sigma is. *)
Theorem sensitivity_curves (option_type : string) (S K T r sigma : R) :
  0 < S -> 0 < K -> 0 < T -> 0 < sigma ->
  (exists ps : list num,
     prices option_type (Fin S) (Fin K) (Fin T) (Fin r) (Fin sigma) = Ok ps
     /\ List.length ps = 100%nat
     /\ forall i : nat, (i < 100)%nat ->
          nth_error ps i
          = Some (Fin (Spec.price option_type
                         (S * 0.7 + INR i * ((S * 1.3 - S * 0.7) / 99)) K T r sigma)))
  /\ (exists vs : list num,
        vol_prices option_type (Fin S) (Fin K) (Fin T) (Fin r) = Ok vs
        /\ List.length vs = 100%nat
        /\ forall i : nat, (i < 100)%nat ->
             nth_error vs i
             = Some (Fin (Spec.price option_type S K T r
                            (0.05 + INR i * ((1.0 - 0.05) / 99))))).
Proof.
  intros HS HK HT Hs.
  assert (HSK : forall s, 0 < s -> 0 < s / K) by (intros; now apply Rdiv_lt_0_compat).
  assert (H99 : INR (100 - 1) = 99) by (cbn [Nat.sub]; rewrite INR_IZR_INZ; reflexivity).
  split.
  - set (spot := fun i : nat => S * 0.7 + INR i * ((S * 1.3 - S * 0.7) / 99)).
    assert (Hax : spot_range_analysis (Fin S) = map (fun i => Fin (spot i)) (seq 0 100)).
    { unfold spot_range_analysis. cbn [nmul]. rewrite linspace_fin. now rewrite H99. }
    assert (Hpos : forall i, 0 < spot i).
    { intro i. unfold spot. generalize (pos_INR i). nra. }
    exists (map (fun i => Fin (Spec.price option_type (spot i) K T r sigma)) (seq 0 100)).
    split; [| split].
    + assert (Hfin : forall i,
                0 < spot i / K /\ K <> 0 /\ 0 < T /\ sigma <> 0)
        by (intro i; repeat split; auto; lra).
      unfold prices, Spec.price. rewrite Hax.
      destruct (option_type =? "call").
      * rewrite (mapM_total_in _ (fun x => value_of
                   (black_scholes_call np_float64 x (Fin K) (Fin T) (Fin r) (Fin sigma)))).
        -- rewrite map_map. f_equal. apply map_ext. intro i.
           destruct (Hfin i) as (H1 & H2 & H3 & H4).
           now rewrite (proj1 (pricing_finite np_float64 (spot i) K T r sigma H1 H2 H3 H4)).
        -- intros a Ha. apply in_map_iff in Ha. destruct Ha as (i & <- & _).
           destruct (Hfin i) as (H1 & H2 & H3 & H4).
           now rewrite (proj1 (pricing_finite np_float64 (spot i) K T r sigma H1 H2 H3 H4)).
      * rewrite (mapM_total_in _ (fun x => value_of
                   (black_scholes_put np_float64 x (Fin K) (Fin T) (Fin r) (Fin sigma)))).
        -- rewrite map_map. f_equal. apply map_ext. intro i.
           destruct (Hfin i) as (H1 & H2 & H3 & H4).
           now rewrite (proj2 (pricing_finite np_float64 (spot i) K T r sigma H1 H2 H3 H4)).
        -- intros a Ha. apply in_map_iff in Ha. destruct Ha as (i & <- & _).
           destruct (Hfin i) as (H1 & H2 & H3 & H4).
           now rewrite (proj2 (pricing_finite np_float64 (spot i) K T r sigma H1 H2 H3 H4)).
    + now rewrite length_map, length_seq.
    + intros i Hi. now rewrite nth_error_map_seq_lt.
  - set (vol := fun i : nat => 0.05 + INR i * ((1.0 - 0.05) / 99)).
    assert (Hax : vol_range_analysis = map (fun i => Fin (vol i)) (seq 0 100)).
    { unfold vol_range_analysis. rewrite linspace_fin. now rewrite H99. }
    assert (Hpos : forall i, 0 < vol i).
    { intro i. unfold vol. generalize (pos_INR i). nra. }
    exists (map (fun i => Fin (Spec.price option_type S K T r (vol i))) (seq 0 100)).
    split; [| split].
    + assert (Hfin : forall i,
                0 < S / K /\ K <> 0 /\ 0 < T /\ vol i <> 0).
      { intro i. specialize (Hpos i). repeat split; auto; lra. }
      unfold vol_prices, Spec.price. rewrite Hax.
      destruct (option_type =? "call").
      * rewrite (mapM_total_in _ (fun x => value_of
                   (black_scholes_call py_float (Fin S) (Fin K) (Fin T) (Fin r) x))).
        -- rewrite map_map. f_equal. apply map_ext. intro i.
           destruct (Hfin i) as (H1 & H2 & H3 & H4).
           now rewrite (proj1 (pricing_finite py_float S K T r (vol i) H1 H2 H3 H4)).
        -- intros a Ha. apply in_map_iff in Ha. destruct Ha as (i & <- & _).
           destruct (Hfin i) as (H1 & H2 & H3 & H4).
           now rewrite (proj1 (pricing_finite py_float S K T r (vol i) H1 H2 H3 H4)).
      * rewrite (mapM_total_in _ (fun x => value_of
                   (black_scholes_put py_float (Fin S) (Fin K) (Fin T) (Fin r) x))).
        -- rewrite map_map. f_equal. apply map_ext. intro i.
           destruct (Hfin i) as (H1 & H2 & H3 & H4).
           now rewrite (proj2 (pricing_finite py_float S K T r (vol i) H1 H2 H3 H4)).
        -- intros a Ha. apply in_map_iff in Ha. destruct Ha as (i & <- & _).
           destruct (Hfin i) as (H1 & H2 & H3 & H4).
           now rewrite (proj2 (pricing_finite py_float S K T r (vol i) H1 H2 H3 H4)).
    + now rewrite length_map, length_seq.
    + intros i Hi. now rewrite nth_error_map_seq_lt.
Qed.

Lemma sensitivity_curves_witness :
  (exists ps : list num,
     prices "call" (Fin 100) (Fin 100) (Fin 0.25) (Fin 0.05) (Fin 0.2) = Ok ps
     /\ List.length ps = 100%nat)
  /\ (exists vs : list num,
        vol_prices "call" (Fin 100) (Fin 100) (Fin 0.25) (Fin 0.05) = Ok vs
        /\ List.length vs = 100%nat).
Proof.
  destruct (sensitivity_curves "call" 100 100 0.25 0.05 0.2)
    as ((ps & Hps & Hlen & _) & (vs & Hvs & Hlen' & _)); try lra.
  split; [exists ps | exists vs]; split; assumption.
Defined.
